(** * easyReview backend: ingestion pipeline, field count and open fields

    A shallow embedding of [api/handlers/fetch.py], [api/handlers/review.py]
    and [api/handlers/openfields.py] over the relational model of
    [reviews/models.py]. *)

From Stdlib Require Import String Ascii List Bool Arith ZArith Lia.
Import ListNotations.
Set Warnings "-register-all".

Local Open Scope string_scope.
Local Open Scope list_scope.

(** ** Parsed metadata, as easyDataverse hands it to the pipeline

    A metadatablock is a pydantic model: iterating it yields its fields in
    declaration order, and [model_fields[name]] carries the description and
    the [json_schema_extra] flags [typeClass] and [multiple]. The value of
    a field is typed by these flags, so the flags are the constructors:
    a single primitive holds [None] or a scalar (rendered by [str]); a
    repeatable primitive holds a list whose elements may be [None]; a single
    compound holds [None] or one compound instance; a repeatable compound
    holds a list of instances. Compound instances are models whose fields
    are primitives (Dataverse compounds are one level deep). *)

Inductive prim : Type :=
| Prim (v : option string)
| Prims (vs : list (option string)).

(** A compound instance: its sub-fields as (name, description, value). *)
Definition compound := list (string * string * prim).

Inductive fval : Type :=
| FPrim (p : prim)
| FComp (c : option compound)
| FComps (cs : list compound).

(** A metadatablock: its fields as (name, description, value). *)
Definition block := list (string * string * fval).

(** [dataset.metadatablocks]: block name to block, in dict order. *)
Definition dataset := list (string * block).

Definition is_none {A} (o : option A) : bool :=
  match o with None => true | Some _ => false end.

(** ** [_is_empty] (fetch.py, lines 204-237) *)

Section IsEmpty.

Variable X : Type.
Variable verdict : X -> bool.

(** The loop: [empty] is overwritten by each field's verdict and the
    function returns [False] at the first non-empty field. *)
Fixpoint is_empty_loop (fs : list (string * string * X)) (empty : bool) : bool :=
  match fs with
  | [] => empty
  | (_, _, v) :: rest =>
      let empty := verdict v in
      if empty then is_empty_loop rest empty else false
  end.

End IsEmpty.

Arguments is_empty_loop {X} verdict fs empty.

(** Per-field verdict of a primitive: a repeatable one is empty iff
    [all(val is None for val in value)], a single one iff [value is None]. *)
Definition prim_empty (p : prim) : bool :=
  match p with
  | Prim v => is_none v
  | Prims vs => forallb is_none vs
  end.

(** [_is_empty] on a compound value; [None] lacks [model_fields]. *)
Definition is_empty_compound (c : option compound) : bool :=
  match c with
  | None => true
  | Some fs => is_empty_loop prim_empty fs true
  end.

Definition fval_empty (v : fval) : bool :=
  match v with
  | FPrim p => prim_empty p
  | FComp c => is_empty_compound c
  | FComps cs => forallb (fun entry => is_empty_compound (Some entry)) cs
  end.

(** [_is_empty] on a metadatablock (always a model). *)
Definition is_empty_block (b : block) : bool :=
  is_empty_loop fval_empty b true.

(** Reachable non-null leaves, the reading of the contract of 4.1. *)
Definition prim_has_value (p : prim) : bool :=
  match p with
  | Prim v => negb (is_none v)
  | Prims vs => existsb (fun x => negb (is_none x)) vs
  end.

Definition compound_has_value (c : compound) : bool :=
  existsb (fun '(_, _, p) => prim_has_value p) c.

Definition fval_has_value (v : fval) : bool :=
  match v with
  | FPrim p => prim_has_value p
  | FComp None => false
  | FComp (Some c) => compound_has_value c
  | FComps cs => existsb compound_has_value cs
  end.

Definition block_has_value (b : block) : bool :=
  existsb (fun '(_, _, v) => fval_has_value v) b.

(** ** The review store (reviews/models.py)

    Every model has a [uuid4] primary key; the store hands out fresh keys
    from a counter. The [date] of a Review, Field descriptions' blank
    defaults and the Message and File tables play no part in the handlers
    below and are left out. *)

Record review_row : Type := {
  r_id : string;
  r_doi : string;
  r_site_url : option string;
  r_revision : nat;
  r_accepted : bool
}.

Record block_row : Type := {
  b_id : string;
  b_review : string;
  b_name : string
}.

Record compound_row : Type := {
  c_id : string;
  c_block : string;
  c_name : string;
  c_accepted : bool
}.

(** A Field points to either its Metadatablock or its Compound. *)
Inductive owner : Type :=
| OBlock (id : string)
| OCompound (id : string).

Record field_row : Type := {
  f_id : string;
  f_owner : owner;
  f_name : string;
  f_description : string;
  f_accepted : option bool;
  f_value : string;
  f_history : list (string * string)
}.

Record store : Type := {
  reviews : list review_row;
  blocks : list block_row;
  compounds : list compound_row;
  fields : list field_row;
  next_id : nat
}.

Fixpoint digits_aux (fuel n : nat) (acc : string) : string :=
  match fuel with
  | 0 => acc
  | S fuel' =>
      let acc' := String (ascii_of_nat (48 + Nat.modulo n 10)) acc in
      if Nat.ltb n 10 then acc' else digits_aux fuel' (Nat.div n 10) acc'
  end.

(** The [uuid4] drawn for the [n]-th saved object. *)
Definition uuid_of (n : nat) : string :=
  ("uuid-" ++ digits_aux (S n) n "")%string.

(** ** State and exception monad

    A handler runs against the store; an exception aborts it but keeps the
    rows saved so far (no enclosing transaction). *)

Inductive exn : Type :=
| TypeError
| DoesNotExist
| MultipleObjectsReturned
| AttributeError
| ClientError
| HTTPError.

Inductive result (A : Type) : Type :=
| Ok (a : A)
| Err (e : exn).

Arguments Ok {A} a.
Arguments Err {A} e.

Definition M (A : Type) : Type := store -> result A * store.

Definition ret {A} (a : A) : M A := fun st => (Ok a, st).

Definition bind {A B} (m : M A) (k : A -> M B) : M B :=
  fun st =>
    match m st with
    | (Ok a, st') => k a st'
    | (Err e, st') => (Err e, st')
    end.

Definition raise {A} (e : exn) : M A := fun st => (Err e, st).

Definition get_store : M store := fun st => (Ok st, st).

Definition lift {A} (r : result A) : M A := fun st => (r, st).

Notation "x <- m ;; k" := (bind m (fun x => k))
  (at level 61, m at next level, right associativity).

Fixpoint for_each {A} (f : A -> M unit) (xs : list A) : M unit :=
  match xs with
  | [] => ret tt
  | x :: rest => _ <- f x ;; for_each f rest
  end.

(** ** [_create_and_save] for each model *)

Definition create_review (doi site_url : string) : M review_row :=
  fun st =>
    let r := {| r_id := uuid_of (next_id st); r_doi := doi;
                r_site_url := Some site_url; r_revision := 1;
                r_accepted := false |} in
    (Ok r, {| reviews := reviews st ++ [r]; blocks := blocks st;
              compounds := compounds st; fields := fields st;
              next_id := S (next_id st) |}).

Definition create_block (review name : string) : M string :=
  fun st =>
    let b := {| b_id := uuid_of (next_id st); b_review := review;
                b_name := name |} in
    (Ok (b_id b), {| reviews := reviews st; blocks := blocks st ++ [b];
                     compounds := compounds st; fields := fields st;
                     next_id := S (next_id st) |}).

Definition create_compound (metadatablock name : string) : M string :=
  fun st =>
    let c := {| c_id := uuid_of (next_id st); c_block := metadatablock;
                c_name := name; c_accepted := false |} in
    (Ok (c_id c), {| reviews := reviews st; blocks := blocks st;
                     compounds := compounds st ++ [c]; fields := fields st;
                     next_id := S (next_id st) |}).

(** The keyword arguments built by [_process_primitive]. *)
Record field_data : Type := {
  pd_name : string;
  pd_description : string;
  pd_value : string;
  pd_history : list (string * string)
}.

Definition create_field (o : owner) (pd : field_data) : M unit :=
  fun st =>
    let f := {| f_id := uuid_of (next_id st); f_owner := o;
                f_name := pd_name pd; f_description := pd_description pd;
                f_accepted := None; f_value := pd_value pd;
                f_history := pd_history pd |} in
    (Ok tt, {| reviews := reviews st; blocks := blocks st;
               compounds := compounds st; fields := fields st ++ [f];
               next_id := S (next_id st) |}).

(** ** The tree flattener (fetch.py, lines 117-201) *)

Definition startswith_underscore (name : string) : bool := String.prefix "_" name.

(** [", ".join(value)] needs every element to be a [str]: a [None] element
    raises [TypeError]. *)
Fixpoint all_str (vs : list (option string)) : result (list string) :=
  match vs with
  | [] => Ok []
  | None :: _ => Err TypeError
  | Some s :: rest =>
      match all_str rest with
      | Ok ss => Ok (s :: ss)
      | Err e => Err e
      end
  end.

Definition py_join (sep : string) (vs : list (option string)) : result string :=
  match all_str vs with
  | Ok ss => Ok (String.concat sep ss)
  | Err e => Err e
  end.

Definition primitive_data (name description s : string) : field_data :=
  {| pd_name := name; pd_description := description; pd_value := s;
     pd_history := [("Original", s)] |}.

(** [_process_primitive]: lists are joined with [", "], then [str(value)]
    is both the value and the ["Original"] entry of the history. *)
Definition _process_primitive (name description : string) (p : prim)
  : result field_data :=
  match p with
  | Prims vs =>
      match py_join ", " vs with
      | Ok s => Ok (primitive_data name description s)
      | Err e => Err e
      end
  | Prim (Some s) => Ok (primitive_data name description s)
  | Prim None => Ok (primitive_data name description "None")
  end.

Definition prim_is_none (p : prim) : bool :=
  match p with Prim None => true | _ => false end.

(** [_create_and_save(model=Field, <owner>=fk, **_process_primitive(...))]:
    the keyword arguments are computed before the row is saved. *)
Definition save_primitive (o : owner) (name description : string) (p : prim)
  : M unit :=
  pd <- lift (_process_primitive name description p) ;;
  create_field o pd.

(** One iteration of the loop of [_process_compound]. *)
Definition process_compound_field (fk : string) (f : string * string * prim)
  : M unit :=
  let '(field_name, description, value) := f in
  if startswith_underscore field_name || prim_is_none value then ret tt
  else save_primitive (OCompound fk) field_name description value.

Definition _process_compound (c : compound) (fk : string) : M unit :=
  for_each (process_compound_field fk) c.

Definition fval_is_none (v : fval) : bool :=
  match v with FPrim (Prim None) | FComp None => true | _ => false end.

Definition fval_is_nil (v : fval) : bool :=
  match v with FPrim (Prims []) | FComps [] => true | _ => false end.

(** One compound entry: a Compound row, then its sub-fields. *)
Definition process_entry (fk field_name : string) (entry : compound) : M unit :=
  cid <- create_compound fk field_name ;;
  _process_compound entry cid.

(** One iteration of the loop of [_process_metadatablock]. *)
Definition process_block_field (fk : string) (f : string * string * fval)
  : M unit :=
  let '(field_name, description, value) := f in
  if startswith_underscore field_name then ret tt
  else if fval_is_none value then ret tt
  else if fval_is_nil value then ret tt
  else
    match value with
    | FPrim p => save_primitive (OBlock fk) field_name description p
    | FComp None => ret tt
    | FComp (Some entry) => for_each (process_entry fk field_name) [entry]
    | FComps entries => for_each (process_entry fk field_name) entries
    end.

Definition _process_metadatablock (b : block) (fk : string) : M unit :=
  for_each (process_block_field fk) b.

(** ** [ReviewSerializer]: the review with its nested blocks, compounds and
    fields as they are in the store when the response is built. *)

Record block_rep : Type := {
  rep_block : block_row;
  rep_primitives : list field_row;
  rep_compounds : list (compound_row * list field_row)
}.

Record review_rep : Type := {
  rep_review : review_row;
  rep_blocks : list block_rep
}.

Definition owner_eqb (o1 o2 : owner) : bool :=
  match o1, o2 with
  | OBlock a, OBlock b => String.eqb a b
  | OCompound a, OCompound b => String.eqb a b
  | _, _ => false
  end.

Definition fields_of (st : store) (o : owner) : list field_row :=
  filter (fun f => owner_eqb (f_owner f) o) (fields st).

Definition compounds_of (st : store) (bid : string) : list compound_row :=
  filter (fun c => String.eqb (c_block c) bid) (compounds st).

Definition blocks_of (st : store) (rid : string) : list block_row :=
  filter (fun b => String.eqb (b_review b) rid) (blocks st).

Definition serialize_review (st : store) (r : review_row) : review_rep :=
  {| rep_review := r;
     rep_blocks :=
       map (fun b =>
              {| rep_block := b;
                 rep_primitives := fields_of st (OBlock (b_id b));
                 rep_compounds :=
                   map (fun c => (c, fields_of st (OCompound (c_id c))))
                       (compounds_of st (b_id b)) |})
           (blocks_of st (r_id r)) |}.

(** ** Remote schema of a metadatablock (openfields.py)

    [GET {site_url}/api/metadatablocks/{name}] answers
    [{"data": {"fields": {...}}}]: a dict from field key to an entry with
    a ["name"], a ["displayName"] and, for compounds, a ["childFields"]
    dict of the same shape. *)

Inductive schema_field : Type :=
| SField (name displayName : string)
         (childFields : option (list (string * schema_field))).

Definition sf_name (f : schema_field) : string :=
  let '(SField n _ _) := f in n.
Definition sf_displayName (f : schema_field) : string :=
  let '(SField _ d _) := f in d.
Definition sf_childFields (f : schema_field) : option (list (string * schema_field)) :=
  let '(SField _ _ c) := f in c.

Definition schema_fields := list (string * schema_field).

(** One entry of the open-fields response. *)
Record open_compound : Type := {
  oc_name : string;
  oc_childFields : list string
}.

Record open_block : Type := {
  ob_name : string;
  ob_primitives : list string;
  ob_compounds : list open_compound
}.

(** ** Responses *)

Inductive body : Type :=
| BMessage (message : string)
| BReview (rep : review_rep)
| BFieldCount (field_count : Z) (accpected_count : nat)
| BOpenFields (blocks : list open_block).

Record response : Type := {
  status : nat;
  data : body
}.

Definition HTTP_200_OK := 200.
Definition HTTP_400_BAD_REQUEST := 400.
Definition HTTP_404_NOT_FOUND := 404.

(** ** [fetch_dataset] (fetch.py, lines 33-97) *)

Record request : Type := {
  q_site_url : option string;
  q_doi : option string;
  q_api_token : option string
}.

(** The easyDataverse client, an external collaborator: whether
    [Dataverse(site_url, api_token)] returns (it raises otherwise), and what
    [load_dataset(pid=doi)] returns on it ([None]: it raises). *)
Record client : Type := {
  dv_connect : option string -> option string -> bool;
  dv_load : option string -> option string -> string -> option dataset
}.

(** [Review.objects.get(doi=doi)]. *)
Definition review_get (doi : string) : M review_row :=
  fun st =>
    match filter (fun r => String.eqb (r_doi r) doi) (reviews st) with
    | [r] => (Ok r, st)
    | [] => (Err DoesNotExist, st)
    | _ => (Err MultipleObjectsReturned, st)
    end.

(** [Review.objects.filter(doi=doi).exists()]. *)
Definition review_exists (st : store) (doi : string) : bool :=
  existsb (fun r => String.eqb (r_doi r) doi) (reviews st).

(** One iteration of the block loop: empty blocks are pruned. *)
Definition process_dataset_block (review : review_row) (bb : string * block)
  : M unit :=
  let '(block_name, b) := bb in
  if is_empty_block b then ret tt
  else
    metadatablock <- create_block (r_id review) block_name ;;
    _process_metadatablock b metadatablock.

Definition missing_message : string :=
  "Missing either 'site_url' or 'doi' to fetch the dataset.".

Definition fetch_dataset (cl : client) (rq : request) : M response :=
  let site_url := q_site_url rq in
  let doi := q_doi rq in
  let api_token := q_api_token rq in
  if negb (dv_connect cl site_url api_token) then raise ClientError
  else
    match site_url, doi with
    | Some site_url, Some doi =>
        st <- get_store ;;
        if review_exists st doi then
          r <- review_get doi ;;
          st' <- get_store ;;
          ret {| status := HTTP_200_OK; data := BReview (serialize_review st' r) |}
        else
          match dv_load cl (Some site_url) api_token doi with
          | None => raise ClientError
          | Some dataset =>
              review <- create_review doi site_url ;;
              _ <- for_each (process_dataset_block review) dataset ;;
              st' <- get_store ;;
              ret {| status := HTTP_200_OK;
                     data := BReview (serialize_review st' review) |}
          end
    | _, _ =>
        ret {| status := HTTP_400_BAD_REQUEST; data := BMessage missing_message |}
    end.

(** ** [get_field_count] (review.py, lines 41-78)

    [values_list] over the reverse relations is a chain of LEFT OUTER JOINs:
    a review, block or compound with no related row still yields one row,
    whose value is NULL ([None]). *)

Definition outer_join {A} (xs : list A) (f : A -> list (option bool))
  : list (option bool) :=
  match xs with
  | [] => [None]
  | _ => flat_map f xs
  end.

Definition reviews_with_pk (st : store) (pk : string) : list review_row :=
  filter (fun r => String.eqb (r_id r) pk) (reviews st).

(** [metadatablocks__primitives__accepted]. *)
Definition primitive_fields (st : store) (pk : string) : list (option bool) :=
  flat_map (fun r =>
    outer_join (blocks_of st (r_id r)) (fun b =>
      outer_join (fields_of st (OBlock (b_id b))) (fun f => [f_accepted f])))
    (reviews_with_pk st pk).

(** [metadatablocks__compounds__primitives__accepted]. *)
Definition compound_fields (st : store) (pk : string) : list (option bool) :=
  flat_map (fun r =>
    outer_join (blocks_of st (r_id r)) (fun b =>
      outer_join (compounds_of st (b_id b)) (fun c =>
        outer_join (fields_of st (OCompound (c_id c))) (fun f => [f_accepted f]))))
    (reviews_with_pk st pk).

Definition is_true (x : option bool) : bool :=
  match x with Some true => true | _ => false end.

Definition get_field_count (st : store) (review_id : string) : response :=
  let pf := primitive_fields st review_id in
  let cf := compound_fields st review_id in
  let field_count := (Z.of_nat (length pf) + Z.of_nat (length cf) - 1)%Z in
  let accepted_fields := length (filter is_true (pf ++ cf)) in
  {| status := HTTP_200_OK; data := BFieldCount field_count accepted_fields |}.

(** ** Open fields (openfields.py) *)

Definition lower_char (c : ascii) : ascii :=
  let n := nat_of_ascii c in
  if Nat.leb 65 n && Nat.leb n 90 then ascii_of_nat (n + 32) else c.

(** [s.replace(" ", "_")] *)
Fixpoint replace_space (s : string) : string :=
  match s with
  | EmptyString => EmptyString
  | String c rest =>
      String (if Ascii.eqb c " "%char then "_"%char else c) (replace_space rest)
  end.

(** [s.lower()] on ASCII text. *)
Fixpoint lower (s : string) : string :=
  match s with
  | EmptyString => EmptyString
  | String c rest => String (lower_char c) (lower rest)
  end.

Definition snake (display_name : string) : string :=
  lower (replace_space display_name).

Definition str_in (x : string) (xs : list string) : bool :=
  existsb (String.eqb x) xs.

Definition has_children (f : schema_field) : bool :=
  negb (is_none (sf_childFields f)).

(** [field.get("childFields", {}).values()] *)
Definition children (f : schema_field) : list schema_field :=
  match sf_childFields f with
  | None => []
  | Some cs => map snd cs
  end.

Definition _get_child_field_names (fs : schema_fields) : list string :=
  flat_map (fun '(_, f) => map sf_name (children f)) fs.

Definition _retrieve_primitives (fs : schema_fields) : list string :=
  let child_field_names := _get_child_field_names fs in
  map (fun '(_, f) => snake (sf_displayName f))
      (filter (fun '(_, f) =>
                 negb (str_in (sf_displayName f) child_field_names)
                 && negb (has_children f)) fs).

Definition _retrieve_compounds (fs : schema_fields) : list open_compound :=
  flat_map (fun '(_, f) =>
              if has_children f then
                [{| oc_name := snake (sf_displayName f);
                    oc_childFields := map (fun c => snake (sf_displayName c))
                                          (children f) |}]
              else [])
           fs.

(** The remote side: [requests.get(url)] followed by
    [raise_for_status()] and [.json()["data"]["fields"]]; [None] is a
    non-success answer. *)
Definition http_get := string -> option schema_fields.

(** The reconciliation of one block, once its schema is fetched. *)
Definition open_fields_of (name : string) (fs : schema_fields) : open_block :=
  let primitives := _retrieve_primitives fs in
  let compounds := _retrieve_compounds fs in
  let all_compound_fields := flat_map oc_childFields compounds in
  {| ob_name := name;
     ob_primitives := filter (fun p => negb (str_in p all_compound_fields)) primitives;
     ob_compounds := compounds |}.

Definition _fetch_open_metadatablock_fields (get : http_get) (name url : string)
  : result open_block :=
  match get url with
  | None => Err HTTPError
  | Some fs => Ok (open_fields_of name fs)
  end.

(** A handler that talks to the network returns its outcome together with
    the URLs it requested, in order. *)
Fixpoint fetch_blocks (get : http_get) (site_url : string) (bs : list block_row)
  : result (list open_block) * list string :=
  match bs with
  | [] => (Ok [], [])
  | b :: rest =>
      let url := (site_url ++ "/api/metadatablocks/" ++ b_name b)%string in
      match _fetch_open_metadatablock_fields get (b_name b) url with
      | Err e => (Err e, [url])
      | Ok ob =>
          let '(res, log) := fetch_blocks get site_url rest in
          (match res with Ok obs => Ok (ob :: obs) | Err e => Err e end, url :: log)
      end
  end.

(** [site_url[:-1]] when it ends with a slash. *)
Definition ends_with_slash (s : string) : bool :=
  match String.length s with
  | 0 => false
  | S k => String.eqb (String.substring k 1 s) "/"
  end.

Definition strip_slash (s : string) : string :=
  if ends_with_slash s then String.substring 0 (String.length s - 1) s else s.

Definition not_found_message (review_pk : string) : string :=
  ("Review with ID '" ++ review_pk ++ "' does not exist.")%string.

Definition fetch_open_metadatablock_fields_for_review
  (get : http_get) (st : store) (review_pk : string)
  : result response * list string :=
  match reviews_with_pk st review_pk with
  | [] => (Ok {| status := HTTP_404_NOT_FOUND;
                 data := BMessage (not_found_message review_pk) |}, [])
  | review :: _ =>
      match r_site_url review with
      | None => (Err AttributeError, [])
      | Some site_url =>
          let site_url := strip_slash site_url in
          let '(res, log) := fetch_blocks get site_url (blocks_of st (r_id review)) in
          (match res with
           | Ok obs => Ok {| status := HTTP_200_OK; data := BOpenFields obs |}
           | Err e => Err e
           end, log)
      end
  end.

(** Stores after saving one Field row. *)
Definition add_field (st : store) (f : field_row) : store :=
  {| reviews := reviews st; blocks := blocks st; compounds := compounds st;
     fields := fields st ++ [f]; next_id := S (next_id st) |}.

Definition empty_list_row (st : store) (fk n d : string) : field_row :=
  {| f_id := uuid_of (next_id st); f_owner := OCompound fk; f_name := n;
     f_description := d; f_accepted := None; f_value := "";
     f_history := [("Original", "")] |}.

(** ** Concrete inputs *)

Definition empty_store : store :=
  {| reviews := []; blocks := []; compounds := []; fields := []; next_id := 0 |}.

(** A client whose constructor connects and whose datasets all load empty. *)
Definition reachable_client : client :=
  {| dv_connect := fun _ _ => true; dv_load := fun _ _ _ => Some [] |}.

(** easyDataverse's [Dataverse(server_url, api_token)] validates the URL and
    connects to the installation while it is built: without a URL it raises. *)
Definition connecting_client : client :=
  {| dv_connect := fun site_url _ => negb (is_none site_url);
     dv_load := fun _ _ _ => Some [] |}.

Definition dup_review (id : string) : review_row :=
  {| r_id := id; r_doi := "doi:10.18419/darus-1"; r_site_url := Some "https://darus.example";
     r_revision := 1; r_accepted := false |}.

(** Two Reviews sharing one DOI: the DOI column is not unique, and
    [ReviewDetails] lets a PUT/PATCH rewrite the [doi] of a Review. *)
Definition dup_store : store :=
  {| reviews := [dup_review "uuid-0"; dup_review "uuid-1"]; blocks := [];
     compounds := []; fields := []; next_id := 2 |}.

Definition dup_request : request :=
  {| q_site_url := Some "https://darus.example"; q_doi := Some "doi:10.18419/darus-1";
     q_api_token := None |}.

Definition no_site_request : request :=
  {| q_site_url := None; q_doi := Some "doi:10.18419/darus-1"; q_api_token := None |}.

(** ** What flattening a block keeps *)

(** The fields the loop of [_process_metadatablock] does not skip. *)
Definition kept (field_name : string) (v : fval) : bool :=
  negb (startswith_underscore field_name) && negb (fval_is_none v) && negb (fval_is_nil v).

Definition kept_primitive_names (b : block) : list string :=
  flat_map (fun '(n, _, v) =>
              if kept n v then match v with FPrim _ => [n] | _ => [] end else []) b.

Definition kept_compound_names (b : block) : list string :=
  flat_map (fun '(n, _, v) =>
              if kept n v then
                match v with
                | FComp (Some _) => [n]
                | FComps es => repeat n (length es)
                | _ => []
                end
              else []) b.

(** Values whose [", "]-join cannot raise: no repeatable primitive holds a
    [None] element. *)
Definition prim_joinable (p : prim) : bool :=
  match p with
  | Prims vs => forallb (fun x => negb (is_none x)) vs
  | Prim _ => true
  end.

Definition compound_joinable (c : compound) : bool :=
  forallb (fun '(_, _, p) => prim_joinable p) c.

Definition fval_joinable (v : fval) : bool :=
  match v with
  | FPrim p => prim_joinable p
  | FComp None => true
  | FComp (Some c) => compound_joinable c
  | FComps cs => forallb compound_joinable cs
  end.

Definition block_joinable (b : block) : bool :=
  forallb (fun '(_, _, v) => fval_joinable v) b.

Definition owned_by_block (fk : string) (f : field_row) : bool :=
  owner_eqb (f_owner f) (OBlock fk).

(** A dataset with a citation block holding values next to null, private
    and empty-list siblings, and a geospatial block with no value at all. *)
Definition citation_block : block :=
  [("title", "Title", FPrim (Prim (Some "Sample data")));
   ("subtitle", "Subtitle", FPrim (Prim None));
   ("_private", "", FPrim (Prim (Some "internal")));
   ("keyword", "Keyword", FPrim (Prims []));
   ("subject", "Subject", FPrim (Prims [Some "Chemistry"; Some "Physics"]));
   ("author", "Author",
    FComps [[("authorName", "Name", Prim (Some "Doe, Jane"));
             ("authorAffiliation", "Affiliation", Prim None)]]);
   ("contact", "Contact", FComp None)].

Definition geo_block : block :=
  [("geographicCoverage", "Geographic Coverage",
    FComps [[("country", "Country", Prim None)]; [("city", "City", Prim None)]]);
   ("geographicUnit", "Geographic Unit", FPrim (Prims [None]));
   ("geographicBoundingBox", "Bounding Box", FComp None)].

Definition sample_dataset : dataset :=
  [("citation", citation_block); ("geospatial", geo_block)].

Definition sample_client : client :=
  {| dv_connect := fun _ _ => true; dv_load := fun _ _ _ => Some sample_dataset |}.

(** A block whose repeatable primitive holds a null element next to a value. *)
Definition null_element_block : block :=
  [("title", "Title", FPrim (Prim (Some "Sample data")));
   ("keyword", "Keyword", FPrim (Prims [None; Some "data"]))].

(** ** The open-fields and field-count results as the specification states them *)

(** Primitives of a block schema as the specification describes them: the
    fields without child fields whose name no field lists among its child
    fields, display names normalised, then without the names that occur
    among the compounds' child names. *)
Definition spec_open_primitives (fs : schema_fields) : list string :=
  let child_names := _get_child_field_names fs in
  let compound_children := flat_map oc_childFields (_retrieve_compounds fs) in
  filter (fun p => negb (str_in p compound_children))
    (map (fun '(_, f) => snake (sf_displayName f))
       (filter (fun '(_, f) =>
                  negb (str_in (sf_name f) child_names) && negb (has_children f)) fs)).

(** The example of the specification: A without children, B with children C
    and D, and C once more at the top level. *)
Definition example_schema : schema_fields :=
  [("a", SField "a" "A" None);
   ("b", SField "b" "B" (Some [("c", SField "c" "C" None); ("d", SField "d" "D" None)]));
   ("c", SField "c" "C" None)].

(** A primitive field whose display name happens to be the name of another
    field's child, without being that child. *)
Definition display_clash_schema : schema_fields :=
  [("a", SField "a" "x" None);
   ("b", SField "b" "B" (Some [("x", SField "x" "Y" None)]))].

(** Field rows under the Metadatablocks of a review, and under their
    Compounds, as the specification counts them. *)
Definition spec_field_count (st : store) (pk : string) : nat :=
  length (filter (fun f =>
    existsb (fun b =>
      owner_eqb (f_owner f) (OBlock (b_id b)) ||
      existsb (fun c => owner_eqb (f_owner f) (OCompound (c_id c)))
              (compounds_of st (b_id b)))
      (flat_map (fun r => blocks_of st (r_id r)) (reviews_with_pk st pk)))
    (fields st)).

Definition spec_accepted_count (st : store) (pk : string) : nat :=
  length (filter (fun f =>
    is_true (f_accepted f) &&
    existsb (fun b =>
      owner_eqb (f_owner f) (OBlock (b_id b)) ||
      existsb (fun c => owner_eqb (f_owner f) (OCompound (c_id c)))
              (compounds_of st (b_id b)))
      (flat_map (fun r => blocks_of st (r_id r)) (reviews_with_pk st pk)))
    (fields st)).

Definition count_field (id : string) (o : owner) (accepted : option bool) : field_row :=
  {| f_id := id; f_owner := o; f_name := id; f_description := "";
     f_accepted := accepted; f_value := "v"; f_history := [("Original", "v")] |}.

(** A review with one block: 3 primitives under the block (2 accepted) and
    one compound with 2 primitives (1 accepted). *)
Definition count_store : store :=
  {| reviews := [dup_review "r"];
     blocks := [{| b_id := "blk"; b_review := "r"; b_name := "citation" |}];
     compounds := [{| c_id := "cmp"; c_block := "blk"; c_name := "author";
                      c_accepted := false |}];
     fields := [count_field "f1" (OBlock "blk") (Some true);
                count_field "f2" (OBlock "blk") (Some true);
                count_field "f3" (OBlock "blk") (Some false);
                count_field "f4" (OCompound "cmp") (Some true);
                count_field "f5" (OCompound "cmp") None];
     next_id := 0 |}.

(** ** Store growth, as the loops produce it *)

(** Only Field rows are appended. *)
Definition fields_grow (s s' : store) : Prop :=
  exists nf, fields s' = fields s ++ nf.

(** What one compound instance adds: Field rows under that Compound. *)
Definition grows_in_compound (cid : string) (s s' : store) : Prop :=
  reviews s' = reviews s /\ blocks s' = blocks s /\ compounds s' = compounds s /\
  exists nf, fields s' = fields s ++ nf /\
             Forall (fun f => f_owner f = OCompound cid) nf.

(** What one block adds: Compound rows under the block, and Field rows
    under the block or under one of these Compounds. *)
Definition grows_in_block (fk : string) (s s' : store) : Prop :=
  reviews s' = reviews s /\ blocks s' = blocks s /\
  exists nc nf, compounds s' = compounds s ++ nc /\ fields s' = fields s ++ nf /\
    Forall (fun c => c_block c = fk) nc /\
    Forall (fun f => f_owner f = OBlock fk \/
                     exists cid, f_owner f = OCompound cid /\ In cid (map c_id nc)) nf.

(** What the block loop of one ingestion adds: Metadatablock rows for
    non-empty blocks of the dataset only, Compound rows under them, and Field
    rows under them or under these Compounds. *)
Definition grows_from (ds : dataset) (s s' : store) : Prop :=
  reviews s' = reviews s /\
  exists nb nc nf,
    blocks s' = blocks s ++ nb /\ compounds s' = compounds s ++ nc /\
    fields s' = fields s ++ nf /\
    Forall (fun br => exists b, In (b_name br, b) ds /\ is_empty_block b = false) nb /\
    Forall (fun c => In (c_block c) (map b_id nb)) nc /\
    Forall (fun f => (exists bid, f_owner f = OBlock bid /\ In bid (map b_id nb)) \/
                     (exists cid, f_owner f = OCompound cid /\ In cid (map c_id nc))) nf.

(** ** Referential integrity of the store

    Every Metadatablock row points to a stored Review, every Compound row
    to a stored Metadatablock, every Field row to a stored Metadatablock or
    Compound. *)

Definition owner_exists (st : store) (o : owner) : bool :=
  match o with
  | OBlock id => str_in id (map b_id (blocks st))
  | OCompound id => str_in id (map c_id (compounds st))
  end.

Definition integrity (st : store) : bool :=
  forallb (fun b => str_in (b_review b) (map r_id (reviews st))) (blocks st) &&
  forallb (fun c => str_in (c_block c) (map b_id (blocks st))) (compounds st) &&
  forallb (fun f => owner_exists st (f_owner f)) (fields st).

(** Names of the blocks of a dataset that survive [_is_empty], in order. *)
Definition kept_block_names (ds : dataset) : list string :=
  map fst (filter (fun '(_, b) => negb (is_empty_block b)) ds).

(** No surviving block holds a null element in a repeatable primitive. *)
Definition dataset_joinable (ds : dataset) : bool :=
  forallb (fun '(_, b) => is_empty_block b || block_joinable b) ds.

(** [review_by_doi] (review.py): the serialized Reviews with that DOI. *)
Definition review_by_doi (st : store) (doi : string) : list review_rep :=
  map (serialize_review st) (filter (fun r => String.eqb (r_doi r) doi) (reviews st)).

(** A client whose dataset has a repeatable primitive with a null element. *)
Definition broken_client : client :=
  {| dv_connect := fun _ _ => true;
     dv_load := fun _ _ _ => Some [("citation", null_element_block)] |}.

(** A client that connects but cannot load the dataset. *)
Definition no_dataset_client : client :=
  {| dv_connect := fun _ _ => true; dv_load := fun _ _ _ => None |}.

(** ** Counting the Field rows of a review *)






(** ** Open fields: a review stored with a trailing slash in its site_url *)

Definition open_review : review_row :=
  {| r_id := "r"; r_doi := "doi:10.18419/darus-1";
     r_site_url := Some "https://darus.example/"; r_revision := 1; r_accepted := false |}.

Definition review_block (id name : string) : block_row :=
  {| b_id := id; b_review := "r"; b_name := name |}.

Definition open_store (names : list (string * string)) : store :=
  {| reviews := [open_review];
     blocks := map (fun '(id, name) => review_block id name) names;
     compounds := []; fields := []; next_id := 0 |}.

(** An installation that serves the citation and geospatial blocks only. *)
Definition darus_get : http_get := fun url =>
  if String.eqb url "https://darus.example/api/metadatablocks/citation" then Some example_schema
  else if String.eqb url "https://darus.example/api/metadatablocks/geospatial" then
    Some display_clash_schema
  else None.

Definition darus_schema (b : block_row) : schema_fields :=
  if String.eqb (b_name b) "citation" then example_schema else display_clash_schema.

(** ** [ReviewDetails] DELETE (views.py) and the cascades of models.py

    [RetrieveUpdateDestroyAPIView.destroy] looks the Review up by primary
    key (404 when there is none) and deletes it; the [on_delete=CASCADE]
    foreign keys then delete its Metadatablock rows, the Compound rows of
    these blocks, and the Field rows whose [metadatablock] or [compound] is
    one of the deleted rows. Files and Messages are not part of this store. *)

Definition HTTP_204_NO_CONTENT := 204.

Definition dead_blocks (st : store) (rid : string) : list string :=
  map b_id (blocks_of st rid).

Definition dead_compounds (st : store) (rid : string) : list string :=
  map c_id (filter (fun c => str_in (c_block c) (dead_blocks st rid)) (compounds st)).

Definition field_dead (st : store) (rid : string) (f : field_row) : bool :=
  match f_owner f with
  | OBlock id => str_in id (dead_blocks st rid)
  | OCompound id => str_in id (dead_compounds st rid)
  end.

Definition delete_review (st : store) (rid : string) : store :=
  {| reviews := filter (fun r => negb (String.eqb (r_id r) rid)) (reviews st);
     blocks := filter (fun b => negb (String.eqb (b_review b) rid)) (blocks st);
     compounds := filter (fun c => negb (str_in (c_block c) (dead_blocks st rid)))
                         (compounds st);
     fields := filter (fun f => negb (field_dead st rid f)) (fields st);
     next_id := next_id st |}.

Definition review_destroy (st : store) (pk : string) : nat * store :=
  match reviews_with_pk st pk with
  | [] => (HTTP_404_NOT_FOUND, st)
  | review :: _ => (HTTP_204_NO_CONTENT, delete_review st (r_id review))
  end.

(** Two reviews, the first with a block holding a field and a compound
    with a field of its own. *)
Definition two_review_store : store :=
  {| reviews := [dup_review "r"; dup_review "s"];
     blocks := [{| b_id := "blk"; b_review := "r"; b_name := "citation" |};
                {| b_id := "blk2"; b_review := "s"; b_name := "citation" |}];
     compounds := [{| c_id := "cmp"; c_block := "blk"; c_name := "author";
                      c_accepted := false |};
                   {| c_id := "cmp2"; c_block := "blk2"; c_name := "author";
                      c_accepted := false |}];
     fields := [count_field "f1" (OBlock "blk") (Some true);
                count_field "f2" (OCompound "cmp") None;
                count_field "f3" (OBlock "blk2") (Some false);
                count_field "f4" (OCompound "cmp2") (Some true)];
     next_id := 0 |}.

(** ** [clean_name] and [camel_to_snake] (openfields.py)

    Python's [re] and [str] methods on ASCII text: [\w] is a letter, a digit
    or [_]; [\s] and [strip()] use the whitespace characters 9 to 13 and
    28 to 32; [.] is any character but the newline; [lower()] changes A-Z
    only. *)

Definition is_upper (c : ascii) : bool :=
  Nat.leb 65 (nat_of_ascii c) && Nat.leb (nat_of_ascii c) 90.

Definition is_lower (c : ascii) : bool :=
  Nat.leb 97 (nat_of_ascii c) && Nat.leb (nat_of_ascii c) 122.

Definition is_digit (c : ascii) : bool :=
  Nat.leb 48 (nat_of_ascii c) && Nat.leb (nat_of_ascii c) 57.

Definition is_word (c : ascii) : bool :=
  is_upper c || is_lower c || is_digit c || Ascii.eqb c "_"%char.

Definition is_space (c : ascii) : bool :=
  (Nat.leb 9 (nat_of_ascii c) && Nat.leb (nat_of_ascii c) 13) ||
  (Nat.leb 28 (nat_of_ascii c) && Nat.leb (nat_of_ascii c) 32).

Definition is_ascii_char (c : ascii) : bool := Nat.ltb (nat_of_ascii c) 128.

(** [re.sub(r"[^\w\s_]", " ", name)] *)
Fixpoint blank_invalid (s : string) : string :=
  match s with
  | EmptyString => EmptyString
  | String c rest =>
      String (if is_word c || is_space c then c else " "%char) (blank_invalid rest)
  end.

Fixpoint lstrip (s : string) : string :=
  match s with
  | EmptyString => EmptyString
  | String c rest => if is_space c then lstrip rest else s
  end.

Fixpoint rstrip (s : string) : string :=
  match s with
  | EmptyString => EmptyString
  | String c rest =>
      match rstrip rest with
      | EmptyString => if is_space c then EmptyString else String c EmptyString
      | r => String c r
      end
  end.

Definition strip (s : string) : string := rstrip (lstrip s).

Definition clean_name (name : string) : string := strip (blank_invalid name).

(** [re.sub("(.)([A-Z][a-z]+)", r"\1_\2", s)]: matches are searched left
    to right and do not overlap; [in_run] holds while the greedy [[a-z]+]
    of the last match is still being consumed. *)
Fixpoint sub1 (in_run : bool) (s : string) : string :=
  match s with
  | EmptyString => EmptyString
  | String c rest =>
      if in_run && is_lower c then String c (sub1 true rest)
      else
        match rest with
        | String u ((String l _) as rest') =>
            if negb (Ascii.eqb c "010"%char) && is_upper u && is_lower l
            then String c (String "_"%char (String u (sub1 true rest')))
            else String c (sub1 false rest)
        | _ => String c (sub1 false rest)
        end
  end.

(** [re.sub("([a-z0-9])([A-Z])", r"\1_\2", s)] *)
Fixpoint sub2 (s : string) : string :=
  match s with
  | String c ((String u rest') as rest) =>
      if (is_lower c || is_digit c) && is_upper u
      then String c (String "_"%char (String u (sub2 rest')))
      else String c (sub2 rest)
  | _ => s
  end.

Definition camel_to_snake (name : string) : string :=
  lower (sub2 (sub1 false (clean_name name))).

Fixpoint all_chars (p : ascii -> bool) (s : string) : bool :=
  match s with
  | EmptyString => true
  | String c rest => p c && all_chars p rest
  end.

Definition first_char (s : string) : option ascii :=
  match s with
  | EmptyString => None
  | String c _ => Some c
  end.

Fixpoint last_char (s : string) : option ascii :=
  match s with
  | EmptyString => None
  | String c rest =>
      match rest with
      | EmptyString => Some c
      | _ => last_char rest
      end
  end.

(** No whitespace at this end. *)
Definition edge_ok (o : option ascii) : bool :=
  match o with
  | Some c => negb (is_space c)
  | None => true
  end.

(** The text [camel_to_snake] produces: ASCII word characters and
    whitespace, no upper-case letter, no whitespace at either end. *)
Definition snake_char (c : ascii) : bool :=
  is_ascii_char c && (is_word c || is_space c) && negb (is_upper c).

Definition snake_shape (s : string) : bool :=
  all_chars snake_char s && edge_ok (first_char s) && edge_ok (last_char s).

(** * Properties *)

(** ** The emptiness filter *)

Lemma is_empty_loop_forallb {X} (verdict : X -> bool) fs :
  is_empty_loop verdict fs true = forallb (fun '(_, _, v) => verdict v) fs.
Proof.
  induction fs as [|[[n d] v] rest IH]; simpl; [reflexivity|].
  destruct (verdict v); simpl; [exact IH|reflexivity].
Qed.

Lemma prim_empty_no_value p : prim_empty p = negb (prim_has_value p).
Proof.
  destruct p as [[s|]|vs]; simpl; try reflexivity.
  induction vs as [|[s|] vs IH]; simpl; auto.
Qed.

Lemma compound_empty_no_value c :
  is_empty_compound (Some c) = negb (compound_has_value c).
Proof.
  unfold is_empty_compound, compound_has_value.
  rewrite is_empty_loop_forallb.
  induction c as [|[[n d] p] rest IH]; simpl; [reflexivity|].
  rewrite prim_empty_no_value, IH. now destruct (prim_has_value p).
Qed.

Lemma fval_empty_no_value v : fval_empty v = negb (fval_has_value v).
Proof.
  destruct v as [p|[c|]|cs].
  - apply prim_empty_no_value.
  - apply compound_empty_no_value.
  - reflexivity.
  - change (forallb (fun entry => is_empty_compound (Some entry)) cs =
            negb (existsb compound_has_value cs)).
    induction cs as [|c cs IH]; [reflexivity|].
    cbn [forallb existsb]. rewrite compound_empty_no_value, IH.
    now destruct (compound_has_value c).
Qed.

Lemma block_empty_no_value b : is_empty_block b = negb (block_has_value b).
Proof.
  unfold is_empty_block, block_has_value.
  rewrite is_empty_loop_forallb.
  induction b as [|[[n d] v] rest IH]; simpl; [reflexivity|].
  rewrite fval_empty_no_value, IH. now destruct (fval_has_value v).
Qed.

(** C2. [_is_empty] reports a block, or a compound instance, empty exactly
    when no reachable leaf holds a non-null value. Field by field it follows
    the per-field rules (repeatable compound: every instance empty; single
    compound: the instance empty; repeatable primitive: every element null;
    single primitive: null); it returns false at the first non-empty field,
    and otherwise the verdict of the last field, which on that path is always
    true, so the result is the conjunction of the per-field verdicts. A node
    with no fields, or a value without a field schema ([None]), is empty. *)
Theorem is_empty_contract :
  (forall b : block, is_empty_block b = negb (block_has_value b)) /\
  (forall c : compound, is_empty_compound (Some c) = negb (compound_has_value c)) /\
  (forall b : block,
      is_empty_block b = forallb (fun '(_, _, v) => fval_empty v) b) /\
  (forall (n d : string) (v : fval) (rest : block),
      is_empty_block ((n, d, v) :: rest) =
      if fval_empty v then is_empty_loop fval_empty rest (fval_empty v) else false) /\
  (forall cs, fval_empty (FComps cs) = forallb (fun c => is_empty_compound (Some c)) cs) /\
  (forall c, fval_empty (FComp c) = is_empty_compound c) /\
  (forall vs, fval_empty (FPrim (Prims vs)) = forallb is_none vs) /\
  (forall v, fval_empty (FPrim (Prim v)) = is_none v) /\
  is_empty_block [] = true /\
  is_empty_compound (Some []) = true /\
  is_empty_compound None = true.
Proof.
  repeat split.
  - apply block_empty_no_value.
  - apply compound_empty_no_value.
  - intro b. apply is_empty_loop_forallb.
Qed.

(** ** Running loops in the store monad *)

Lemma bind_get_store {B} (k : store -> M B) st : bind get_store k st = k st st.
Proof. reflexivity. Qed.

Lemma bind_step {A B} (m : M A) (k : A -> M B) st a st' :
  m st = (Ok a, st') -> bind m k st = k a st'.
Proof. intro H. unfold bind. now rewrite H. Qed.

Section ForEach.

Variable A : Type.
Variable f : A -> M unit.

Lemma for_each_inv (R : store -> store -> Prop) :
  (forall s, R s s) ->
  (forall s1 s2 s3, R s1 s2 -> R s2 s3 -> R s1 s3) ->
  forall xs,
  (forall x, In x xs -> forall s, R s (snd (f x s))) ->
  forall s, R s (snd (for_each f xs s)).
Proof.
  intros Hrefl Htrans xs. induction xs as [|x xs IH]; intros Hstep s; simpl.
  - apply Hrefl.
  - unfold bind. specialize (Hstep x (or_introl eq_refl) s) as Hx.
    destruct (f x s) as [[u|e] s1] eqn:E; simpl in *.
    + eapply Htrans; [exact Hx|]. apply IH. intros y Hy. apply Hstep. now right.
    + exact Hx.
Qed.

Lemma for_each_app xs ys s :
  for_each f (xs ++ ys) s = bind (for_each f xs) (fun _ => for_each f ys) s.
Proof.
  revert s. induction xs as [|x xs IH]; intro s; simpl.
  - reflexivity.
  - unfold bind. simpl.
    destruct (f x s) as [[u|e] s1]; [|reflexivity].
    rewrite IH. reflexivity.
Qed.

End ForEach.

Arguments for_each_inv {A} f R _ _ xs _ s.
Arguments for_each_app {A} f xs ys s.

Lemma fields_grow_refl s : fields_grow s s.
Proof. exists []. now rewrite app_nil_r. Qed.

Lemma fields_grow_trans s1 s2 s3 :
  fields_grow s1 s2 -> fields_grow s2 s3 -> fields_grow s1 s3.
Proof.
  intros [n1 H1] [n2 H2]. exists (n1 ++ n2). now rewrite H2, H1, app_assoc.
Qed.

Lemma all_str_ok vs ss : all_str vs = Ok ss -> vs = map Some ss.
Proof.
  revert ss. induction vs as [|[s|] vs IH]; intros ss H; simpl in H.
  - now inversion H.
  - destruct (all_str vs) as [ss'|e] eqn:E; inversion H; subst.
    simpl. now rewrite <- (IH ss' eq_refl).
  - discriminate.
Qed.

Lemma all_str_err vs e : all_str vs = Err e -> e = TypeError /\ In None vs.
Proof.
  induction vs as [|[s|] vs IH]; intro H; simpl in H.
  - discriminate.
  - destruct (all_str vs) eqn:E; [discriminate|]. inversion H; subst.
    destruct (IH eq_refl) as [He Hin]. split; [exact He|now right].
  - inversion H. split; [reflexivity|now left].
Qed.

Lemma save_primitive_grows o n d p s : fields_grow s (snd (save_primitive o n d p s)).
Proof.
  unfold save_primitive, bind, lift.
  destruct (_process_primitive n d p) as [pd|e]; simpl.
  - eexists. reflexivity.
  - apply fields_grow_refl.
Qed.

Lemma process_compound_field_grows fk x s :
  fields_grow s (snd (process_compound_field fk x s)).
Proof.
  destruct x as [[n d] v]. unfold process_compound_field.
  destruct (startswith_underscore n || prim_is_none v).
  - apply fields_grow_refl.
  - apply save_primitive_grows.
Qed.

Lemma process_compound_grows c fk s : fields_grow s (snd (_process_compound c fk s)).
Proof.
  unfold _process_compound.
  apply (for_each_inv _ fields_grow fields_grow_refl fields_grow_trans).
  intros x _ s'. apply process_compound_field_grows.
Qed.

(** ** Field rows from primitives *)

(** C7. Saving a list-valued primitive either raises [TypeError] (a [None]
    element cannot be joined) and saves nothing, or saves exactly one Field
    row whose value is the elements joined with [", "] and whose history is
    [{"Original": value}] with that same joined string. *)
Theorem list_primitive_joined (o : owner) (n d : string) (vs : list (option string))
  (st : store) :
  match save_primitive o n d (Prims vs) st with
  | (Ok _, st') =>
      exists ss f,
        vs = map Some ss /\ fields st' = fields st ++ [f] /\
        f_owner f = o /\ f_name f = n /\
        f_value f = String.concat ", " ss /\
        f_history f = [("Original", String.concat ", " ss)] /\
        f_history f = [("Original", f_value f)]
  | (Err e, st') => e = TypeError /\ In None vs /\ st' = st
  end.
Proof.
  unfold save_primitive, bind, lift, _process_primitive, py_join.
  destruct (all_str vs) as [ss|e] eqn:E.
  - simpl. exists ss. eexists. repeat split; try reflexivity.
    now apply all_str_ok.
  - simpl. destruct (all_str_err _ _ E) as [He Hin]. now repeat split.
Qed.

Lemma compound_field_empty_list fk n d st :
  startswith_underscore n = false ->
  process_compound_field fk (n, d, Prims []) st
  = (Ok tt, add_field st (empty_list_row st fk n d)).
Proof. intro Hn. unfold process_compound_field. now rewrite Hn. Qed.

(** C10. In the compound-level loop an empty-list sub-field is not skipped:
    once the loop reaches it, it saves a Field row under the Compound whose
    value is the empty string (the [", "]-join of no elements) and whose
    history is [{"Original": ""}]; the block-level loop skips the same value. *)
Theorem compound_empty_list_not_skipped (pre post : compound) (fk n d : string)
  (st st1 : store)
  (Hn : startswith_underscore n = false)
  (Hpre : _process_compound pre fk st = (Ok tt, st1)) :
  (exists f rest,
      fields (snd (_process_compound (pre ++ (n, d, Prims []) :: post) fk st))
        = fields st1 ++ f :: rest /\
      f_owner f = OCompound fk /\ f_name f = n /\
      f_value f = "" /\ f_history f = [("Original", "")]) /\
  (forall fk' st', process_block_field fk' (n, d, FPrim (Prims [])) st' = (Ok tt, st')).
Proof.
  split.
  - unfold _process_compound in *. rewrite for_each_app.
    unfold bind at 1. rewrite Hpre. cbn [for_each]. unfold bind at 1.
    rewrite (compound_field_empty_list fk n d st1 Hn).
    destruct (process_compound_grows post fk (add_field st1 (empty_list_row st1 fk n d)))
      as [nf Hnf].
    unfold _process_compound in Hnf.
    destruct (for_each _ post _) as [r s2]. simpl in *.
    exists (empty_list_row st1 fk n d), nf. split; [|repeat split].
    rewrite Hnf, <- app_assoc. reflexivity.
  - intros fk' st'. simpl. destruct (startswith_underscore n); reflexivity.
Qed.

(** ** The open-fields endpoint *)

Lemma reviews_with_pk_nil st pk :
  (forall r, In r (reviews st) -> r_id r <> pk) -> reviews_with_pk st pk = [].
Proof.
  unfold reviews_with_pk. induction (reviews st) as [|r rs IH]; intro H; simpl.
  - reflexivity.
  - destruct (String.eqb_spec (r_id r) pk) as [E|E].
    + exfalso. exact (H r (or_introl eq_refl) E).
    + apply IH. intros r' Hr'. apply H. now right.
Qed.

(** C9. For a review identifier no Review row has, the open-fields endpoint
    answers 404 with the message ["Review with ID '<id>' does not exist."],
    which names the identifier, and requests no URL at all. *)
Theorem open_fields_unknown_review (get : http_get) (st : store) (pk : string)
  (Hmissing : forall r, In r (reviews st) -> r_id r <> pk) :
  fetch_open_metadatablock_fields_for_review get st pk =
    (Ok {| status := HTTP_404_NOT_FOUND; data := BMessage (not_found_message pk) |}, []) /\
  not_found_message pk = ("Review with ID '" ++ pk ++ "' does not exist.")%string.
Proof.
  split; [|reflexivity].
  unfold fetch_open_metadatablock_fields_for_review.
  now rewrite (reviews_with_pk_nil st pk Hmissing).
Qed.

Lemma open_fields_unknown_review_witness :
  (forall r, In r (reviews dup_store) -> r_id r <> "uuid-9") /\
  fetch_open_metadatablock_fields_for_review (fun _ => None) dup_store "uuid-9" =
    (Ok {| status := HTTP_404_NOT_FOUND; data := BMessage (not_found_message "uuid-9") |}, []) /\
  not_found_message "uuid-9" = ("Review with ID '" ++ "uuid-9" ++ "' does not exist.")%string.
Proof.
  assert (H : forall r, In r (reviews dup_store) -> r_id r <> "uuid-9").
  { simpl. intros r [E|[E|[]]]; subst; simpl; discriminate. }
  split; [exact H|].
  apply (open_fields_unknown_review (fun _ => None) dup_store "uuid-9" H).
Defined.

(** ** Fetching a DOI that is already stored *)

(** C1 (as the code has it). When some Review already has the DOI, the
    fetch leaves the store as it was, whatever the client does: no Review,
    Metadatablock, Compound or Field row is added and the flattener does not
    run. Once the client is built, a single Review with that DOI is returned
    with 200 and its representation; two or more make
    [Review.objects.get] raise [MultipleObjectsReturned]. *)
Theorem fetch_existing_doi (cl : client) (rq : request) (st : store)
  (site_url doi : string)
  (Hsite : q_site_url rq = Some site_url) (Hdoi : q_doi rq = Some doi)
  (Hexists : review_exists st doi = true) :
  snd (fetch_dataset cl rq st) = st /\
  (dv_connect cl (Some site_url) (q_api_token rq) = true ->
   (forall r, filter (fun r => String.eqb (r_doi r) doi) (reviews st) = [r] ->
      fst (fetch_dataset cl rq st) =
        Ok {| status := HTTP_200_OK; data := BReview (serialize_review st r) |}) /\
  (forall r1 r2 rs,
      filter (fun r => String.eqb (r_doi r) doi) (reviews st) = r1 :: r2 :: rs ->
      fst (fetch_dataset cl rq st) = Err MultipleObjectsReturned)).
Proof.
  unfold fetch_dataset. rewrite Hsite, Hdoi.
  destruct (dv_connect cl (Some site_url) (q_api_token rq)) eqn:Hc; simpl.
  - unfold bind, get_store, review_get. rewrite Hexists.
    split.
    + destruct (filter _ (reviews st)) as [|r [|r2 rs]]; reflexivity.
    + intros _. split.
      * intros r Hr. now rewrite Hr.
      * intros r1 r2 rs Hr. now rewrite Hr.
  - split; [reflexivity|discriminate].
Qed.

Lemma fetch_existing_doi_witness :
  snd (fetch_dataset reachable_client dup_request dup_store) = dup_store /\
  (dv_connect reachable_client (Some "https://darus.example") (q_api_token dup_request) = true ->
   (forall r, filter (fun r => String.eqb (r_doi r) "doi:10.18419/darus-1") (reviews dup_store) = [r] ->
      fst (fetch_dataset reachable_client dup_request dup_store) =
        Ok {| status := HTTP_200_OK; data := BReview (serialize_review dup_store r) |}) /\
  (forall r1 r2 rs,
      filter (fun r => String.eqb (r_doi r) "doi:10.18419/darus-1") (reviews dup_store) = r1 :: r2 :: rs ->
      fst (fetch_dataset reachable_client dup_request dup_store) = Err MultipleObjectsReturned)).
Proof.
  apply (fetch_existing_doi reachable_client dup_request dup_store
           "https://darus.example" "doi:10.18419/darus-1"); reflexivity.
Defined.

(** C1, refuted: with two Reviews sharing the DOI, re-fetching it does not
    answer 200 with the existing Review: the lookup raises. *)
Lemma fetch_duplicate_doi_raises :
  review_exists dup_store "doi:10.18419/darus-1" = true /\
  fetch_dataset reachable_client dup_request dup_store
    = (Err MultipleObjectsReturned, dup_store).
Proof. split; reflexivity. Qed.

(** ** Missing query parameters *)

(** When [site_url] or [doi] is missing the store is left as it was; if the
    client is built without raising, the answer is 400 with its message. *)
Lemma fetch_missing_param (cl : client) (rq : request) (st : store)
  (Hmissing : q_site_url rq = None \/ q_doi rq = None) :
  snd (fetch_dataset cl rq st) = st /\
  (dv_connect cl (q_site_url rq) (q_api_token rq) = true ->
   fst (fetch_dataset cl rq st) =
     Ok {| status := HTTP_400_BAD_REQUEST; data := BMessage missing_message |}).
Proof.
  unfold fetch_dataset.
  destruct (dv_connect cl (q_site_url rq) (q_api_token rq)); simpl;
    [|split; [reflexivity|discriminate]].
  destruct Hmissing as [H|H]; rewrite H;
    [|destruct (q_site_url rq)]; split; reflexivity.
Qed.

(** C5, evaluated: a request with a DOI and no [site_url] builds the client
    with [Dataverse(None, None)] before the parameters are checked; a client
    that connects on construction raises, so no 400 is answered (nothing is
    stored either). *)
Theorem fetch_no_site_url_client_raises :
  fetch_dataset connecting_client no_site_request empty_store
    = (Err ClientError, empty_store).
Proof. reflexivity. Qed.

Lemma compound_empty_list_not_skipped_witness :
  startswith_underscore "dsDescriptionDate" = false /\
  _process_compound [] "uuid-4" empty_store = (Ok tt, empty_store) /\
  ((exists f rest,
      fields (snd (_process_compound ([] ++ ("dsDescriptionDate", "Date", Prims [])
                                        :: [("dsDescriptionValue", "Text", Prim (Some "abc"))])
                                     "uuid-4" empty_store))
        = fields empty_store ++ f :: rest /\
      f_owner f = OCompound "uuid-4" /\ f_name f = "dsDescriptionDate" /\
      f_value f = "" /\ f_history f = [("Original", "")]) /\
   (forall fk' st', process_block_field fk' ("dsDescriptionDate", "Date", FPrim (Prims []))
                                        st' = (Ok tt, st'))).
Proof.
  split; [reflexivity|]. split; [reflexivity|].
  apply (compound_empty_list_not_skipped [] [("dsDescriptionValue", "Text", Prim (Some "abc"))]
           "uuid-4" "dsDescriptionDate" "Date" empty_store empty_store);
    reflexivity.
Defined.

(** ** Pruning of empty blocks *)

Lemma grows_in_compound_refl cid s : grows_in_compound cid s s.
Proof. repeat split. exists []. now rewrite app_nil_r. Qed.

Lemma grows_in_compound_trans cid s1 s2 s3 :
  grows_in_compound cid s1 s2 -> grows_in_compound cid s2 s3 ->
  grows_in_compound cid s1 s3.
Proof.
  intros (R1 & B1 & C1 & nf1 & F1 & O1) (R2 & B2 & C2 & nf2 & F2 & O2).
  repeat split; try congruence.
  exists (nf1 ++ nf2). split; [now rewrite F2, F1, app_assoc|].
  now apply Forall_app.
Qed.

Lemma grows_in_block_refl fk s : grows_in_block fk s s.
Proof.
  repeat split. exists [], []. rewrite !app_nil_r. repeat split; constructor.
Qed.

Lemma grows_in_block_trans fk s1 s2 s3 :
  grows_in_block fk s1 s2 -> grows_in_block fk s2 s3 -> grows_in_block fk s1 s3.
Proof.
  intros (R1 & B1 & nc1 & nf1 & C1 & F1 & Hc1 & Hf1)
         (R2 & B2 & nc2 & nf2 & C2 & F2 & Hc2 & Hf2).
  repeat split; try congruence.
  exists (nc1 ++ nc2), (nf1 ++ nf2).
  split; [now rewrite C2, C1, app_assoc|].
  split; [now rewrite F2, F1, app_assoc|].
  split; [now apply Forall_app|].
  apply Forall_app. split.
  - eapply Forall_impl; [|exact Hf1]. intros f [H|(cid & H & Hin)]; [now left|].
    right. exists cid. split; [exact H|]. rewrite map_app. apply in_or_app. now left.
  - eapply Forall_impl; [|exact Hf2]. intros f [H|(cid & H & Hin)]; [now left|].
    right. exists cid. split; [exact H|]. rewrite map_app. apply in_or_app. now right.
Qed.

Lemma grows_from_refl ds s : grows_from ds s s.
Proof.
  split; [reflexivity|]. exists [], [], []. rewrite !app_nil_r.
  repeat split; constructor.
Qed.

Lemma grows_from_trans ds s1 s2 s3 :
  grows_from ds s1 s2 -> grows_from ds s2 s3 -> grows_from ds s1 s3.
Proof.
  intros (R1 & nb1 & nc1 & nf1 & B1 & C1 & F1 & Hb1 & Hc1 & Hf1)
         (R2 & nb2 & nc2 & nf2 & B2 & C2 & F2 & Hb2 & Hc2 & Hf2).
  split; [congruence|].
  exists (nb1 ++ nb2), (nc1 ++ nc2), (nf1 ++ nf2).
  split; [now rewrite B2, B1, app_assoc|].
  split; [now rewrite C2, C1, app_assoc|].
  split; [now rewrite F2, F1, app_assoc|].
  split; [now apply Forall_app|].
  split.
  - rewrite map_app. apply Forall_app. split.
    + eapply Forall_impl; [|exact Hc1]. intros c H. apply in_or_app. now left.
    + eapply Forall_impl; [|exact Hc2]. intros c H. apply in_or_app. now right.
  - rewrite !map_app. apply Forall_app. split.
    + eapply Forall_impl; [|exact Hf1].
      intros f [(bid & H & Hin)|(cid & H & Hin)].
      * left. exists bid. split; [exact H|]. apply in_or_app. now left.
      * right. exists cid. split; [exact H|]. apply in_or_app. now left.
    + eapply Forall_impl; [|exact Hf2].
      intros f [(bid & H & Hin)|(cid & H & Hin)].
      * left. exists bid. split; [exact H|]. apply in_or_app. now right.
      * right. exists cid. split; [exact H|]. apply in_or_app. now right.
Qed.

Lemma save_primitive_in_compound cid n d p s :
  grows_in_compound cid s (snd (save_primitive (OCompound cid) n d p s)).
Proof.
  unfold save_primitive, bind, lift.
  destruct (_process_primitive n d p) as [pd|e]; simpl.
  - repeat split. eexists. split; [reflexivity|]. now repeat constructor.
  - apply grows_in_compound_refl.
Qed.

Lemma process_compound_in_compound c cid s :
  grows_in_compound cid s (snd (_process_compound c cid s)).
Proof.
  unfold _process_compound.
  apply (for_each_inv _ (grows_in_compound cid) (grows_in_compound_refl cid)
           (grows_in_compound_trans cid)).
  intros [[n d] v] _ s'. unfold process_compound_field.
  destruct (startswith_underscore n || prim_is_none v).
  - apply grows_in_compound_refl.
  - apply save_primitive_in_compound.
Qed.

Lemma process_entry_in_block fk n e s :
  grows_in_block fk s (snd (process_entry fk n e s)).
Proof.
  unfold process_entry, bind at 1, create_compound. cbv beta iota zeta.
  set (c := {| c_id := uuid_of (next_id s); c_block := fk; c_name := n;
               c_accepted := false |}).
  set (s1 := {| reviews := reviews s; blocks := blocks s;
                compounds := compounds s ++ [c]; fields := fields s;
                next_id := S (next_id s) |}).
  destruct (process_compound_in_compound e (c_id c) s1)
    as (R & B & C & nf & F & O).
  repeat split; try (rewrite ?R, ?B; reflexivity).
  exists [c], nf. split; [rewrite C; reflexivity|].
  split; [rewrite F; reflexivity|].
  split; [now repeat constructor|].
  eapply Forall_impl; [|exact O]. intros f H. right. exists (c_id c).
  split; [exact H|now left].
Qed.

Lemma save_primitive_in_block fk n d p s :
  grows_in_block fk s (snd (save_primitive (OBlock fk) n d p s)).
Proof.
  unfold save_primitive, bind, lift.
  destruct (_process_primitive n d p) as [pd|e]; simpl.
  - repeat split. eexists [], [_]. rewrite app_nil_r.
    split; [reflexivity|]. split; [reflexivity|].
    split; [constructor|]. repeat constructor.
  - apply grows_in_block_refl.
Qed.

Lemma process_block_field_in_block fk x s :
  grows_in_block fk s (snd (process_block_field fk x s)).
Proof.
  destruct x as [[n d] v]. unfold process_block_field.
  destruct (startswith_underscore n); [apply grows_in_block_refl|].
  destruct (fval_is_none v); [apply grows_in_block_refl|].
  destruct (fval_is_nil v); [apply grows_in_block_refl|].
  destruct v as [p|[e|]|es].
  - apply save_primitive_in_block.
  - apply (for_each_inv _ (grows_in_block fk) (grows_in_block_refl fk)
             (grows_in_block_trans fk)).
    intros x _ s'. apply process_entry_in_block.
  - apply grows_in_block_refl.
  - apply (for_each_inv _ (grows_in_block fk) (grows_in_block_refl fk)
             (grows_in_block_trans fk)).
    intros x _ s'. apply process_entry_in_block.
Qed.

Lemma process_metadatablock_in_block b fk s :
  grows_in_block fk s (snd (_process_metadatablock b fk s)).
Proof.
  unfold _process_metadatablock.
  apply (for_each_inv _ (grows_in_block fk) (grows_in_block_refl fk)
           (grows_in_block_trans fk)).
  intros x _ s'. apply process_block_field_in_block.
Qed.

Lemma process_dataset_block_from ds review bn b s :
  In (bn, b) ds ->
  grows_from ds s (snd (process_dataset_block review (bn, b) s)).
Proof.
  intro Hin. unfold process_dataset_block.
  destruct (is_empty_block b) eqn:He; [apply grows_from_refl|].
  unfold bind at 1, create_block. cbv beta iota zeta.
  set (br := {| b_id := uuid_of (next_id s); b_review := r_id review; b_name := bn |}).
  set (s1 := {| reviews := reviews s; blocks := blocks s ++ [br];
                compounds := compounds s; fields := fields s;
                next_id := S (next_id s) |}).
  destruct (process_metadatablock_in_block b (b_id br) s1)
    as (R & B & nc & nf & C & F & Hc & Hf).
  split; [rewrite R; reflexivity|].
  exists [br], nc, nf.
  split; [rewrite B; reflexivity|].
  split; [rewrite C; reflexivity|].
  split; [rewrite F; reflexivity|].
  split; [repeat constructor; now exists b|].
  split.
  - eapply Forall_impl; [|exact Hc]. intros c H. rewrite H. now left.
  - eapply Forall_impl; [|exact Hf]. intros f [H|H]; [left|right; exact H].
    exists (b_id br). split; [exact H|now left].
Qed.

Lemma nodup_fst_in {K V} (l : list (K * V)) k v1 v2 :
  NoDup (map fst l) -> In (k, v1) l -> In (k, v2) l -> v1 = v2.
Proof.
  induction l as [|[k' v'] l IH]; intros Hnd H1 H2; [destruct H1|].
  simpl in Hnd. inversion Hnd as [|x xs Hnotin Hnd']; subst.
  destruct H1 as [E1|H1]; destruct H2 as [E2|H2].
  - inversion E1; inversion E2; congruence.
  - inversion E1; subst. exfalso. apply Hnotin.
    change k with (fst (k, v2)). now apply in_map.
  - inversion E2; subst. exfalso. apply Hnotin.
    change k with (fst (k, v1)). now apply in_map.
  - now apply IH.
Qed.

(** C6. When the fetched dataset has a block in which no reachable leaf
    holds a non-null value (every field null, every repeatable-compound
    instance empty, ...), the fetch creates no Metadatablock row named after
    it; every Compound row it creates hangs off a Metadatablock row it
    created, and every Field row it creates off such a Metadatablock or such
    a Compound, so none is under the pruned block. *)
Theorem empty_block_not_persisted (cl : client) (rq : request) (st : store)
  (site_url doi : string) (ds : dataset) (bn : string) (b : block)
  (Hsite : q_site_url rq = Some site_url) (Hdoi : q_doi rq = Some doi)
  (Hload : dv_load cl (Some site_url) (q_api_token rq) doi = Some ds)
  (Hnodup : NoDup (map fst ds)) (Hin : In (bn, b) ds)
  (Hnovalue : block_has_value b = false) :
  let st' := snd (fetch_dataset cl rq st) in
  exists nb nc nf,
    blocks st' = blocks st ++ nb /\ compounds st' = compounds st ++ nc /\
    fields st' = fields st ++ nf /\
    Forall (fun br => b_name br <> bn) nb /\
    Forall (fun c => In (c_block c) (map b_id nb)) nc /\
    Forall (fun f => (exists bid, f_owner f = OBlock bid /\ In bid (map b_id nb)) \/
                     (exists cid, f_owner f = OCompound cid /\ In cid (map c_id nc))) nf.
Proof.
  intro st'.
  assert (Hunchanged : forall s', s' = st ->
    exists nb nc nf,
    blocks s' = blocks st ++ nb /\ compounds s' = compounds st ++ nc /\
    fields s' = fields st ++ nf /\
    Forall (fun br => b_name br <> bn) nb /\
    Forall (fun c => In (c_block c) (map b_id nb)) nc /\
    Forall (fun f => (exists bid, f_owner f = OBlock bid /\ In bid (map b_id nb)) \/
                     (exists cid, f_owner f = OCompound cid /\ In cid (map c_id nc))) nf).
  { intros s' ->. exists [], [], []. rewrite !app_nil_r. repeat split; constructor. }
  subst st'. unfold fetch_dataset. rewrite Hsite, Hdoi.
  destruct (dv_connect cl (Some site_url) (q_api_token rq)); simpl;
    [|now apply Hunchanged].
  rewrite bind_get_store.
  destruct (review_exists st doi).
  { apply Hunchanged. unfold bind, review_get.
    destruct (filter _ (reviews st)) as [|r [|r2 rs]]; reflexivity. }
  rewrite Hload. unfold bind at 1, create_review. cbv beta iota zeta.
  set (r := {| r_id := uuid_of (next_id st); r_doi := doi;
               r_site_url := Some site_url; r_revision := 1; r_accepted := false |}).
  set (s1 := {| reviews := reviews st ++ [r]; blocks := blocks st;
                compounds := compounds st; fields := fields st;
                next_id := S (next_id st) |}).
  assert (Hg : grows_from ds s1 (snd (for_each (process_dataset_block r) ds s1))).
  { apply (for_each_inv _ (grows_from ds) (grows_from_refl ds) (grows_from_trans ds)).
    intros [bn' b'] Hin' s'. now apply process_dataset_block_from. }
  destruct Hg as (_ & nb & nc & nf & B & C & F & Hb & Hc & Hf).
  assert (Hnames : Forall (fun br => b_name br <> bn) nb).
  { eapply Forall_impl; [|exact Hb]. intros br (b' & Hin' & He) Hname.
    rewrite Hname in Hin'.
    rewrite (nodup_fst_in ds bn b b' Hnodup Hin Hin') in Hnovalue.
    rewrite block_empty_no_value, Hnovalue in He. discriminate. }
  destruct (for_each (process_dataset_block r) ds s1) as [res s2] eqn:E.
  simpl in B, C, F.
  assert (Hfinal : snd (bind (for_each (process_dataset_block r) ds)
            (fun _ => st' <- get_store ;;
                      ret {| status := HTTP_200_OK;
                             data := BReview (serialize_review st' r) |}) s1) = s2).
  { unfold bind. rewrite E. destruct res; reflexivity. }
  change (let s' := snd (bind (for_each (process_dataset_block r) ds)
            (fun _ => st' <- get_store ;;
                      ret {| status := HTTP_200_OK;
                             data := BReview (serialize_review st' r) |}) s1) in
    exists nb nc nf,
    blocks s' = blocks st ++ nb /\ compounds s' = compounds st ++ nc /\
    fields s' = fields st ++ nf /\
    Forall (fun br => b_name br <> bn) nb /\
    Forall (fun c => In (c_block c) (map b_id nb)) nc /\
    Forall (fun f => (exists bid, f_owner f = OBlock bid /\ In bid (map b_id nb)) \/
                     (exists cid, f_owner f = OCompound cid /\ In cid (map c_id nc))) nf).
  rewrite Hfinal. cbv zeta.
  exists nb, nc, nf. split; [exact B|]. split; [exact C|]. split; [exact F|].
  split; [exact Hnames|]. split; [exact Hc|exact Hf].
Qed.

(** ** Flattening a surviving block *)

Lemma for_each_ok {A} (f : A -> M unit) xs :
  (forall x, In x xs -> forall s, exists s', f x s = (Ok tt, s')) ->
  forall s, exists s', for_each f xs s = (Ok tt, s').
Proof.
  induction xs as [|x xs IH]; intros Hf s; simpl.
  - now exists s.
  - destruct (Hf x (or_introl eq_refl) s) as [s1 E].
    rewrite (bind_step _ _ _ _ _ E). apply IH. intros y Hy. apply Hf. now right.
Qed.

Lemma all_str_joinable vs :
  forallb (fun x => negb (is_none x)) vs = true -> exists ss, all_str vs = Ok ss.
Proof.
  induction vs as [|[s|] vs IH]; simpl; intro H.
  - now exists [].
  - destruct (IH H) as [ss E]. rewrite E. now exists (s :: ss).
  - discriminate.
Qed.

Lemma save_primitive_ok o n d p s :
  prim_joinable p = true ->
  exists f, save_primitive o n d p s = (Ok tt, add_field s f) /\
            f_owner f = o /\ f_name f = n.
Proof.
  intro Hj. unfold save_primitive, bind, lift, _process_primitive.
  destruct p as [[v|]|vs].
  - eexists. split; [reflexivity|]. split; reflexivity.
  - eexists. split; [reflexivity|]. split; reflexivity.
  - destruct (all_str_joinable vs Hj) as [ss E]. unfold py_join. rewrite E.
    eexists. split; [reflexivity|]. split; reflexivity.
Qed.

Lemma process_compound_ok c cid s :
  compound_joinable c = true -> exists s', _process_compound c cid s = (Ok tt, s').
Proof.
  intro Hj. unfold _process_compound. apply for_each_ok.
  intros [[n d] p] Hin s'. unfold process_compound_field.
  destruct (startswith_underscore n || prim_is_none p); [now exists s'|].
  assert (Hp : prim_joinable p = true).
  { unfold compound_joinable in Hj. rewrite forallb_forall in Hj.
    exact (Hj _ Hin). }
  destruct (save_primitive_ok (OCompound cid) n d p s' Hp) as (f & E & _).
  rewrite E. eexists; reflexivity.
Qed.

Lemma process_entry_ok fk n e s :
  compound_joinable e = true ->
  exists s' c nf,
    process_entry fk n e s = (Ok tt, s') /\
    blocks s' = blocks s /\
    compounds s' = compounds s ++ [c] /\ c_name c = n /\ c_block c = fk /\
    fields s' = fields s ++ nf /\
    Forall (fun f => exists cid, f_owner f = OCompound cid) nf.
Proof.
  intro Hj. unfold process_entry.
  set (c := {| c_id := uuid_of (next_id s); c_block := fk; c_name := n;
               c_accepted := false |}).
  set (s1 := {| reviews := reviews s; blocks := blocks s;
                compounds := compounds s ++ [c]; fields := fields s;
                next_id := S (next_id s) |}).
  assert (E1 : create_compound fk n s = (Ok (c_id c), s1)) by reflexivity.
  rewrite (bind_step _ _ _ _ _ E1).
  destruct (process_compound_ok e (c_id c) s1 Hj) as [s2 E2].
  pose proof (process_compound_in_compound e (c_id c) s1) as G.
  rewrite E2 in G. destruct G as (_ & B & C & nf & F & O).
  exists s2, c, nf. rewrite E2.
  split; [reflexivity|]. split; [exact B|]. split; [exact C|].
  split; [reflexivity|]. split; [reflexivity|]. split; [exact F|].
  eapply Forall_impl; [|exact O]. intros f H. now exists (c_id c).
Qed.

Lemma entries_ok fk n es s :
  forallb compound_joinable es = true ->
  exists s' nc nf,
    for_each (process_entry fk n) es s = (Ok tt, s') /\
    blocks s' = blocks s /\
    compounds s' = compounds s ++ nc /\ map c_name nc = repeat n (length es) /\
    Forall (fun c => c_block c = fk) nc /\
    fields s' = fields s ++ nf /\
    Forall (fun f => exists cid, f_owner f = OCompound cid) nf.
Proof.
  revert s. induction es as [|e es IH]; intros s Hj; simpl in *.
  - exists s, [], []. rewrite !app_nil_r. repeat split; constructor.
  - apply andb_prop in Hj. destruct Hj as [He Hes].
    destruct (process_entry_ok fk n e s He)
      as (s1 & c & nf1 & E1 & B1 & C1 & Hn & Hb & F1 & O1).
    rewrite (bind_step _ _ _ _ _ E1).
    destruct (IH s1 Hes) as (s2 & nc & nf2 & E2 & B2 & C2 & Hnames & Hc & F2 & O2).
    exists s2, (c :: nc), (nf1 ++ nf2).
    split; [exact E2|]. split; [congruence|].
    split; [rewrite C2, C1, <- app_assoc; reflexivity|].
    split; [simpl; congruence|].
    split; [constructor; assumption|].
    split; [rewrite F2, F1, app_assoc; reflexivity|].
    now apply Forall_app.
Qed.

Lemma compound_rows_not_block_owned fk nf :
  Forall (fun f => exists cid, f_owner f = OCompound cid) nf ->
  filter (owned_by_block fk) nf = [].
Proof.
  induction 1 as [|f nf (cid & H) _ IH]; simpl; [reflexivity|].
  unfold owned_by_block at 1. rewrite H. exact IH.
Qed.

(** C6, at the sample dataset: the geospatial block has no value. *)
Lemma empty_block_not_persisted_witness :
  q_site_url dup_request = Some "https://darus.example" /\
  q_doi dup_request = Some "doi:10.18419/darus-1" /\
  dv_load sample_client (Some "https://darus.example") (q_api_token dup_request)
    "doi:10.18419/darus-1" = Some sample_dataset /\
  NoDup (map fst sample_dataset) /\
  In ("geospatial", geo_block) sample_dataset /\
  block_has_value geo_block = false /\
  let st' := snd (fetch_dataset sample_client dup_request empty_store) in
  exists nb nc nf,
    blocks st' = blocks empty_store ++ nb /\
    compounds st' = compounds empty_store ++ nc /\
    fields st' = fields empty_store ++ nf /\
    Forall (fun br => b_name br <> "geospatial") nb /\
    Forall (fun c => In (c_block c) (map b_id nb)) nc /\
    Forall (fun f => (exists bid, f_owner f = OBlock bid /\ In bid (map b_id nb)) \/
                     (exists cid, f_owner f = OCompound cid /\ In cid (map c_id nc))) nf.
Proof.
  split; [reflexivity|]. split; [reflexivity|]. split; [reflexivity|].
  split; [constructor; [simpl; intros [H|[]]; discriminate H|constructor; [intros []|constructor]]|].
  split; [simpl; right; left; reflexivity|].
  split; [vm_compute; reflexivity|].
  apply (empty_block_not_persisted sample_client dup_request empty_store
           "https://darus.example" "doi:10.18419/darus-1" sample_dataset
           "geospatial" geo_block).
  - reflexivity.
  - reflexivity.
  - reflexivity.
  - constructor; [simpl; intros [H|[]]; discriminate H|constructor; [intros []|constructor]].
  - simpl; right; left; reflexivity.
  - vm_compute; reflexivity.
Defined.

Lemma block_field_ok fk n d v s :
  fval_joinable v = true ->
  exists s' nc nf,
    process_block_field fk (n, d, v) s = (Ok tt, s') /\
    blocks s' = blocks s /\
    compounds s' = compounds s ++ nc /\ fields s' = fields s ++ nf /\
    map f_name (filter (owned_by_block fk) nf) = kept_primitive_names [(n, d, v)] /\
    map c_name nc = kept_compound_names [(n, d, v)] /\
    Forall (fun c => c_block c = fk) nc.
Proof.
  intro Hj. unfold process_block_field, kept_primitive_names, kept_compound_names, kept.
  simpl flat_map. rewrite !app_nil_r.
  assert (Hnil : exists s' nc nf,
    (Ok tt, s) = (Ok tt, s') /\ blocks s' = blocks s /\
    compounds s' = compounds s ++ nc /\ fields s' = fields s ++ nf /\
    map f_name (filter (owned_by_block fk) nf) = [] /\
    map c_name nc = [] /\ Forall (fun c => c_block c = fk) nc).
  { exists s, [], []. rewrite !app_nil_r. repeat split; constructor. }
  destruct (startswith_underscore n); [exact Hnil|].
  destruct (fval_is_none v) eqn:Hnone; [exact Hnil|].
  destruct (fval_is_nil v); [exact Hnil|]. simpl.
  destruct v as [p|[e|]|es].
  - destruct (save_primitive_ok (OBlock fk) n d p s Hj) as (f & E & Ho & Hn).
    exists (add_field s f), [], [f]. rewrite app_nil_r.
    split; [exact E|]. split; [reflexivity|]. split; [reflexivity|].
    split; [reflexivity|].
    split; [|split; [reflexivity|constructor]].
    simpl. unfold owned_by_block. rewrite Ho. simpl. rewrite String.eqb_refl.
    simpl. now rewrite Hn.
  - assert (Hes : forallb compound_joinable [e] = true)
      by (simpl; rewrite andb_true_r; exact Hj).
    destruct (entries_ok fk n [e] s Hes)
      as (s' & nc & nf & E & B & C & Hn & Hc & F & O).
    exists s', nc, nf. rewrite compound_rows_not_block_owned by exact O.
    repeat split; assumption.
  - discriminate Hnone.
  - destruct (entries_ok fk n es s Hj)
      as (s' & nc & nf & E & B & C & Hn & Hc & F & O).
    exists s', nc, nf. rewrite compound_rows_not_block_owned by exact O.
    repeat split; assumption.
Qed.

(** The loop of [_process_metadatablock] over a block none of whose
    repeatable primitives holds a null element: it completes, creating one
    Field row under the block per kept primitive field and one Compound row
    under the block per instance of each kept compound field. *)
Lemma metadatablock_loop_ok (b : block) (fk : string) (s : store) :
  block_joinable b = true ->
  exists s' nc nf,
    _process_metadatablock b fk s = (Ok tt, s') /\
    blocks s' = blocks s /\
    compounds s' = compounds s ++ nc /\ fields s' = fields s ++ nf /\
    map f_name (filter (owned_by_block fk) nf) = kept_primitive_names b /\
    map c_name nc = kept_compound_names b /\
    Forall (fun c => c_block c = fk) nc.
Proof.
  unfold _process_metadatablock. revert s.
  induction b as [|[[n d] v] rest IH]; intros s Hj.
  - exists s, [], []. rewrite !app_nil_r. repeat split; constructor.
  - simpl in Hj. apply andb_prop in Hj. destruct Hj as [Hv Hrest].
    destruct (block_field_ok fk n d v s Hv)
      as (s1 & nc1 & nf1 & E1 & B1 & C1 & F1 & Hp1 & Hc1 & Hb1).
    simpl for_each. rewrite (bind_step _ _ _ _ _ E1).
    destruct (IH s1 Hrest)
      as (s2 & nc2 & nf2 & E2 & B2 & C2 & F2 & Hp2 & Hc2 & Hb2).
    exists s2, (nc1 ++ nc2), (nf1 ++ nf2).
    split; [exact E2|]. split; [congruence|].
    split; [rewrite C2, C1, app_assoc; reflexivity|].
    split; [rewrite F2, F1, app_assoc; reflexivity|].
    split.
    + rewrite filter_app, map_app, Hp1, Hp2.
      unfold kept_primitive_names. simpl. rewrite app_nil_r. reflexivity.
    + split.
      * rewrite map_app, Hc1, Hc2.
        unfold kept_compound_names. simpl. rewrite app_nil_r. reflexivity.
      * now apply Forall_app.
Qed.

Lemma all_str_none vs : In None vs -> all_str vs = Err TypeError.
Proof.
  induction vs as [|[x|] vs IH]; simpl; intro H.
  - contradiction.
  - destruct H as [H|H]; [discriminate H|]. now rewrite (IH H).
  - reflexivity.
Qed.

(** C8 fails: a repeatable primitive holding a null element next to a
    value is neither private, nor null, nor an empty list, and its block is
    not pruned as empty; yet [", ".join(value)] raises [TypeError] on the
    null element, so flattening the block stops there. The only rows it has
    created are those of the fields before it: no Field row for this field
    or for any field after it. *)
Theorem null_element_join_raises (pre post : block) (n d : string)
  (vs : list (option string)) (x : string) (fk : string) (s : store)
  (Hpre : block_joinable pre = true) (Hn : startswith_underscore n = false)
  (Hnull : In None vs) (Hval : In (Some x) vs) :
  kept n (FPrim (Prims vs)) = true /\
  is_empty_block (pre ++ (n, d, FPrim (Prims vs)) :: post) = false /\
  exists s' nc nf,
    _process_metadatablock (pre ++ (n, d, FPrim (Prims vs)) :: post) fk s =
      (Err TypeError, s') /\
    blocks s' = blocks s /\
    compounds s' = compounds s ++ nc /\ fields s' = fields s ++ nf /\
    map f_name (filter (owned_by_block fk) nf) = kept_primitive_names pre /\
    map c_name nc = kept_compound_names pre.
Proof.
  assert (Hne : vs <> []) by (intro E; rewrite E in Hnull; contradiction).
  split.
  { unfold kept. rewrite Hn. simpl. destruct vs; [contradiction|reflexivity]. }
  split.
  { rewrite block_empty_no_value. apply negb_false_iff.
    unfold block_has_value. rewrite existsb_app. apply orb_true_iff. right.
    simpl. apply orb_true_iff. left. apply existsb_exists.
    exists (Some x). split; [exact Hval|reflexivity]. }
  destruct (metadatablock_loop_ok pre fk s Hpre)
    as (s1 & nc & nf & E1 & B1 & C1 & F1 & Hp & Hc & _).
  exists s1, nc, nf.
  split; [|repeat split; assumption].
  unfold _process_metadatablock. rewrite for_each_app.
  unfold _process_metadatablock in E1. rewrite (bind_step _ _ _ _ _ E1).
  simpl for_each. unfold bind at 1. unfold process_block_field. rewrite Hn.
  destruct vs as [|v0 vs']; [contradiction|]. simpl fval_is_none. simpl fval_is_nil.
  unfold save_primitive, bind, lift, _process_primitive, py_join.
  rewrite (all_str_none _ Hnull). reflexivity.
Qed.

(** C8, at a block holding a title and the keywords [[None, "data"]]:
    only the title gets a Field row before the join raises. *)
Lemma null_element_join_raises_witness :
  block_joinable [("title", "Title", FPrim (Prim (Some "Sample data")))] = true /\
  startswith_underscore "keyword" = false /\
  In None [None; Some "data"] /\ In (Some "data") [None; Some "data"] /\
  kept "keyword" (FPrim (Prims [None; Some "data"])) = true /\
  is_empty_block null_element_block = false /\
  exists s' nc nf,
    _process_metadatablock null_element_block "blk" empty_store = (Err TypeError, s') /\
    blocks s' = blocks empty_store /\
    compounds s' = compounds empty_store ++ nc /\ fields s' = fields empty_store ++ nf /\
    map f_name (filter (owned_by_block "blk") nf) = ["title"] /\
    map c_name nc = [].
Proof.
  assert (Hpre : block_joinable [("title", "Title", FPrim (Prim (Some "Sample data")))] = true)
    by reflexivity.
  assert (Hn : startswith_underscore "keyword" = false) by reflexivity.
  assert (Hnull : In None [None; Some "data"]) by (left; reflexivity).
  assert (Hval : In (Some "data") [None; Some "data"]) by (right; left; reflexivity).
  split; [exact Hpre|]. split; [exact Hn|]. split; [exact Hnull|]. split; [exact Hval|].
  exact (null_element_join_raises [("title", "Title", FPrim (Prim (Some "Sample data")))] []
           "keyword" "Keyword" [None; Some "data"] "data" "blk" empty_store Hpre Hn Hnull Hval).
Defined.

(** C3. The reconciliation reproduces the specification's example, but it
    decides whether a field is some compound's child by comparing the
    field's display name with the children's names: the primitive field
    [a] below, displayed as "x", is nobody's child, yet it is dropped
    because a child of [b] is named "x". *)
Theorem open_primitives_display_name_clash :
  open_fields_of "blk" example_schema =
    {| ob_name := "blk"; ob_primitives := ["a"];
       ob_compounds := [{| oc_name := "b"; oc_childFields := ["c"; "d"] |}] |} /\
  spec_open_primitives example_schema = ["a"] /\
  spec_open_primitives display_clash_schema = ["x"] /\
  ob_primitives (open_fields_of "blk" display_clash_schema) = [].
Proof. vm_compute. repeat split. Qed.

(** C4. For a review with 3 primitives under its block (2 accepted) and 2
    under a compound (1 accepted), the specification counts 5 fields, 3 of
    them accepted; the handler answers a field count of 4 (the sum of the
    two lists' lengths, minus 1) and an accepted count of 3. *)
Theorem field_count_off_by_one :
  spec_field_count count_store "r" = 5 /\
  spec_accepted_count count_store "r" = 3 /\
  data (get_field_count count_store "r") = BFieldCount 4 3.
Proof. vm_compute. repeat split. Qed.

(** ** Ingestion of a new DOI *)

Lemma str_in_In x xs : str_in x xs = true <-> In x xs.
Proof.
  unfold str_in. rewrite existsb_exists. split.
  - intros (y & Hy & E). apply String.eqb_eq in E. now subst.
  - intro H. exists x. split; [exact H|apply String.eqb_refl].
Qed.

Lemma integrity_extend s s' nr nb nc nf :
  integrity s = true ->
  reviews s' = reviews s ++ nr -> blocks s' = blocks s ++ nb ->
  compounds s' = compounds s ++ nc -> fields s' = fields s ++ nf ->
  (forall b, In b nb -> In (b_review b) (map r_id (reviews s'))) ->
  (forall c, In c nc -> In (c_block c) (map b_id (blocks s'))) ->
  (forall f, In f nf -> owner_exists s' (f_owner f) = true) ->
  integrity s' = true.
Proof.
  unfold integrity. intros H R B C F Hb Hc Hf.
  apply andb_prop in H as [H Hf0]. apply andb_prop in H as [Hb0 Hc0].
  rewrite forallb_forall in Hb0, Hc0, Hf0.
  repeat (apply andb_true_intro; split); apply forallb_forall; intros x Hx.
  - rewrite B in Hx. apply in_app_or in Hx as [Hx|Hx].
    + apply str_in_In. pose proof (Hb0 x Hx) as Hx'. apply str_in_In in Hx'.
      rewrite R, map_app. apply in_or_app. now left.
    + apply str_in_In. now apply Hb.
  - rewrite C in Hx. apply in_app_or in Hx as [Hx|Hx].
    + apply str_in_In. pose proof (Hc0 x Hx) as Hx'. apply str_in_In in Hx'.
      rewrite B, map_app. apply in_or_app. now left.
    + apply str_in_In. now apply Hc.
  - rewrite F in Hx. apply in_app_or in Hx as [Hx|Hx].
    + specialize (Hf0 x Hx). unfold owner_exists in *.
      destruct (f_owner x); apply str_in_In; apply str_in_In in Hf0;
        [rewrite B|rewrite C]; rewrite map_app; apply in_or_app; now left.
    + now apply Hf.
Qed.

Lemma integrity_metadatablock b fk s :
  integrity s = true -> In fk (map b_id (blocks s)) ->
  integrity (snd (_process_metadatablock b fk s)) = true.
Proof.
  intros H Hfk.
  destruct (process_metadatablock_in_block b fk s) as (R & B & nc & nf & C & F & Hc & Hf).
  apply (integrity_extend s _ [] [] nc nf H); try rewrite app_nil_r; try assumption.
  - intros x [].
  - intros c Hin. rewrite Forall_forall in Hc. rewrite (Hc c Hin), B. exact Hfk.
  - intros f Hin. rewrite Forall_forall in Hf. unfold owner_exists.
    destruct (Hf f Hin) as [E|(cid & E & Hcid)]; rewrite E; apply str_in_In.
    + rewrite B. exact Hfk.
    + rewrite C, map_app. apply in_or_app. now right.
Qed.

Lemma integrity_dataset_block review bb s :
  integrity s = true /\ In (r_id review) (map r_id (reviews s)) ->
  let s' := snd (process_dataset_block review bb s) in
  integrity s' = true /\ In (r_id review) (map r_id (reviews s')).
Proof.
  destruct bb as [bn b]. intros [H Hr]. unfold process_dataset_block.
  destruct (is_empty_block b); [split; assumption|].
  set (br := {| b_id := uuid_of (next_id s); b_review := r_id review; b_name := bn |}).
  set (s1 := {| reviews := reviews s; blocks := blocks s ++ [br];
                compounds := compounds s; fields := fields s;
                next_id := S (next_id s) |}).
  assert (E : create_block (r_id review) bn s = (Ok (b_id br), s1)) by reflexivity.
  rewrite (bind_step _ _ _ _ _ E).
  assert (H1 : integrity s1 = true).
  { apply (integrity_extend s s1 [] [br] [] []); simpl; try rewrite app_nil_r;
      try reflexivity; try assumption.
    - intros x [<-|[]]. exact Hr.
    - intros x [].
    - intros x []. }
  split.
  - apply integrity_metadatablock; [exact H1|].
    simpl. rewrite map_app. apply in_or_app. right. now left.
  - destruct (process_metadatablock_in_block b (b_id br) s1) as (R & _).
    rewrite R. exact Hr.
Qed.

(** [fetch_dataset] on a DOI no Review has, once the client is built and the
    dataset loaded: the Review row is saved, then the block loop runs. *)
Lemma fetch_new_doi_unfold cl rq st site_url doi ds :
  q_site_url rq = Some site_url -> q_doi rq = Some doi ->
  dv_connect cl (Some site_url) (q_api_token rq) = true ->
  review_exists st doi = false ->
  dv_load cl (Some site_url) (q_api_token rq) doi = Some ds ->
  let r := {| r_id := uuid_of (next_id st); r_doi := doi;
              r_site_url := Some site_url; r_revision := 1; r_accepted := false |} in
  let s1 := {| reviews := reviews st ++ [r]; blocks := blocks st;
               compounds := compounds st; fields := fields st;
               next_id := S (next_id st) |} in
  fetch_dataset cl rq st =
    match for_each (process_dataset_block r) ds s1 with
    | (Ok _, s2) =>
        (Ok {| status := HTTP_200_OK; data := BReview (serialize_review s2 r) |}, s2)
    | (Err e, s2) => (Err e, s2)
    end.
Proof.
  intros Hs Hd Hc Hx Hl r s1. unfold fetch_dataset. rewrite Hs, Hd, Hc. simpl.
  rewrite bind_get_store, Hx, Hl. unfold bind at 1, create_review.
  fold r. fold s1. unfold bind.
  destruct (for_each (process_dataset_block r) ds s1) as [[u|e] s2]; reflexivity.
Qed.

Lemma dataset_loop_reviews review ds s :
  reviews (snd (for_each (process_dataset_block review) ds s)) = reviews s.
Proof.
  apply (for_each_inv _ (fun s s' => reviews s' = reviews s)).
  - reflexivity.
  - intros s1 s2 s3 E1 E2. congruence.
  - intros [bn b] _ s'. destruct (process_dataset_block_from [(bn, b)] review bn b s')
      as [R _]; [now left|exact R].
Qed.

Lemma metadatablock_ok b fk s :
  block_joinable b = true -> exists s', _process_metadatablock b fk s = (Ok tt, s').
Proof.
  intro Hj. unfold _process_metadatablock. apply for_each_ok.
  intros [[n d] v] Hin s'. unfold block_joinable in Hj. rewrite forallb_forall in Hj.
  destruct (block_field_ok fk n d v s' (Hj _ Hin)) as (s2 & nc & nf & E & _).
  now exists s2.
Qed.

Lemma dataset_loop_ok review ds s :
  dataset_joinable ds = true ->
  exists s' nb,
    for_each (process_dataset_block review) ds s = (Ok tt, s') /\
    reviews s' = reviews s /\ blocks s' = blocks s ++ nb /\
    map b_name nb = kept_block_names ds /\
    Forall (fun br => b_review br = r_id review) nb.
Proof.
  revert s. induction ds as [|[bn b] ds IH]; intros s Hj.
  - exists s, []. rewrite app_nil_r. repeat split. constructor.
  - simpl in Hj. apply andb_prop in Hj as [Hb Hds].
    change (for_each (process_dataset_block review) ((bn, b) :: ds) s) with
      (bind (process_dataset_block review (bn, b))
            (fun _ => for_each (process_dataset_block review) ds) s).
    unfold kept_block_names. simpl filter.
    destruct (is_empty_block b) eqn:He; simpl negb.
    + assert (E0 : process_dataset_block review (bn, b) s = (Ok tt, s))
        by (unfold process_dataset_block; rewrite He; reflexivity).
      rewrite (bind_step _ _ _ _ _ E0).
      destruct (IH s Hds) as (s' & nb & E & R & B & N & F).
      exists s', nb. now repeat split.
    + simpl in Hb.
      set (br := {| b_id := uuid_of (next_id s); b_review := r_id review; b_name := bn |}).
      set (s1 := {| reviews := reviews s; blocks := blocks s ++ [br];
                    compounds := compounds s; fields := fields s;
                    next_id := S (next_id s) |}).
      assert (E1 : create_block (r_id review) bn s = (Ok (b_id br), s1)) by reflexivity.
      destruct (metadatablock_ok b (b_id br) s1 Hb) as (s2 & E2).
      destruct (process_metadatablock_in_block b (b_id br) s1) as (R2 & B2 & _).
      rewrite E2 in R2, B2. simpl in R2, B2.
      assert (E12 : process_dataset_block review (bn, b) s = (Ok tt, s2)).
      { unfold process_dataset_block. rewrite He. rewrite (bind_step _ _ _ _ _ E1).
        exact E2. }
      rewrite (bind_step _ _ _ _ _ E12).
      destruct (IH s2 Hds) as (s3 & nb & E3 & R3 & B3 & N3 & F3).
      exists s3, (br :: nb).
      split; [exact E3|]. split; [congruence|].
      split; [rewrite B3, B2; simpl; rewrite <- app_assoc; reflexivity|].
      split; [simpl; f_equal; exact N3|].
      constructor; [reflexivity|exact F3].
Qed.

Lemma review_exists_false_filter st doi :
  review_exists st doi = false ->
  filter (fun r => String.eqb (r_doi r) doi) (reviews st) = [].
Proof.
  unfold review_exists. induction (reviews st) as [|r rs IH]; simpl; [reflexivity|].
  intro H. apply orb_false_iff in H as [H1 H2]. rewrite H1. now apply IH.
Qed.

(** The existing-DOI branch of [fetch_dataset], when one Review has it. *)
Lemma fetch_known_doi cl rq st site_url doi r :
  q_site_url rq = Some site_url -> q_doi rq = Some doi ->
  dv_connect cl (Some site_url) (q_api_token rq) = true ->
  filter (fun r => String.eqb (r_doi r) doi) (reviews st) = [r] ->
  fetch_dataset cl rq st =
    (Ok {| status := HTTP_200_OK; data := BReview (serialize_review st r) |}, st).
Proof.
  intros Hs Hd Hc Hf. unfold fetch_dataset. rewrite Hs, Hd, Hc. simpl.
  rewrite bind_get_store.
  assert (Hx : review_exists st doi = true).
  { unfold review_exists. apply existsb_exists. exists r.
    assert (Hin : In r (filter (fun r => String.eqb (r_doi r) doi) (reviews st)))
      by (rewrite Hf; now left).
    apply filter_In in Hin. exact Hin. }
  rewrite Hx. unfold bind, review_get. rewrite Hf. reflexivity.
Qed.

Lemma fetch_new_doi_ok cl rq st site_url doi ds :
  q_site_url rq = Some site_url -> q_doi rq = Some doi ->
  dv_connect cl (Some site_url) (q_api_token rq) = true ->
  review_exists st doi = false ->
  dv_load cl (Some site_url) (q_api_token rq) doi = Some ds ->
  dataset_joinable ds = true ->
  exists r st',
    fetch_dataset cl rq st =
      (Ok {| status := HTTP_200_OK; data := BReview (serialize_review st' r) |}, st') /\
    reviews st' = reviews st ++ [r] /\
    r_doi r = doi /\ r_site_url r = Some site_url /\ r_revision r = 1 /\
    r_accepted r = false /\
    exists nb, blocks st' = blocks st ++ nb /\ map b_name nb = kept_block_names ds /\
               Forall (fun br => b_review br = r_id r) nb.
Proof.
  intros Hs Hd Hc Hx Hl Hj.
  rewrite (fetch_new_doi_unfold cl rq st site_url doi ds Hs Hd Hc Hx Hl). cbv zeta.
  set (r := {| r_id := uuid_of (next_id st); r_doi := doi;
               r_site_url := Some site_url; r_revision := 1; r_accepted := false |}).
  set (s1 := {| reviews := reviews st ++ [r]; blocks := blocks st;
                compounds := compounds st; fields := fields st;
                next_id := S (next_id st) |}).
  destruct (dataset_loop_ok r ds s1 Hj) as (s2 & nb & E & R & B & N & F).
  rewrite E. exists r, s2.
  split; [reflexivity|]. split; [exact R|].
  repeat (split; [reflexivity|]).
  exists nb. split; [exact B|]. split; assumption.
Qed.

(** X1. Whatever it answers, and even when it raises half-way, fetching a
    dataset keeps the store's references intact: every Metadatablock row it
    leaves points to a stored Review, every Compound row to a stored
    Metadatablock, every Field row to a stored Metadatablock or Compound. *)
Theorem fetch_dataset_keeps_integrity (cl : client) (rq : request) (st : store)
  (H : integrity st = true) :
  integrity (snd (fetch_dataset cl rq st)) = true.
Proof.
  destruct (q_site_url rq) as [u|] eqn:Hs.
  2: { unfold fetch_dataset. rewrite Hs.
       destruct (dv_connect cl None (q_api_token rq)); exact H. }
  destruct (q_doi rq) as [d|] eqn:Hd.
  2: { unfold fetch_dataset. rewrite Hs, Hd.
       destruct (dv_connect cl (Some u) (q_api_token rq)); exact H. }
  destruct (dv_connect cl (Some u) (q_api_token rq)) eqn:Hc.
  2: { unfold fetch_dataset. rewrite Hs, Hd, Hc. exact H. }
  destruct (review_exists st d) eqn:Hx.
  { unfold fetch_dataset. rewrite Hs, Hd, Hc. simpl. rewrite bind_get_store, Hx.
    unfold bind, review_get.
    destruct (filter _ (reviews st)) as [|r [|r2 rs]]; exact H. }
  destruct (dv_load cl (Some u) (q_api_token rq) d) as [ds|] eqn:Hl.
  2: { unfold fetch_dataset. rewrite Hs, Hd, Hc. simpl.
       rewrite bind_get_store, Hx, Hl. exact H. }
  rewrite (fetch_new_doi_unfold cl rq st u d ds Hs Hd Hc Hx Hl). cbv zeta.
  set (r := {| r_id := uuid_of (next_id st); r_doi := d;
               r_site_url := Some u; r_revision := 1; r_accepted := false |}).
  set (s1 := {| reviews := reviews st ++ [r]; blocks := blocks st;
                compounds := compounds st; fields := fields st;
                next_id := S (next_id st) |}).
  set (P := fun s => integrity s = true /\ In (r_id r) (map r_id (reviews s))).
  assert (L : P s1 -> P (snd (for_each (process_dataset_block r) ds s1))).
  { apply (for_each_inv _ (fun s s' => P s -> P s')).
    - intros s h. exact h.
    - intros s2 s3 s4 h1 h2 h. exact (h2 (h1 h)).
    - intros x _ s' h. exact (integrity_dataset_block r x s' h). }
  assert (P1 : P s1).
  { split.
    - apply (integrity_extend st s1 [r] [] [] []); simpl; try rewrite app_nil_r;
        try reflexivity; try assumption; intros x [].
    - simpl. rewrite map_app. apply in_or_app. right. now left. }
  destruct (L P1) as [Hi _].
  destruct (for_each (process_dataset_block r) ds s1) as [[x|e] s2]; exact Hi.
Qed.

(** X2. Fetching a DOI no Review has, with a client that is built and a
    dataset that loads and whose surviving blocks hold no null element in a
    repeatable primitive, answers 200 with the new Review's representation,
    adds exactly one Review row (that DOI and site_url, revision 1, not
    accepted), and one Metadatablock row under it per block that is not
    empty, in the dataset's order and named after the block. *)
Theorem fetch_new_doi_creates_review (cl : client) (rq : request) (st : store)
  (site_url doi : string) (ds : dataset)
  (Hsite : q_site_url rq = Some site_url) (Hdoi : q_doi rq = Some doi)
  (Hconnect : dv_connect cl (Some site_url) (q_api_token rq) = true)
  (Hnew : review_exists st doi = false)
  (Hload : dv_load cl (Some site_url) (q_api_token rq) doi = Some ds)
  (Hjoin : dataset_joinable ds = true) :
  exists r st',
    fetch_dataset cl rq st =
      (Ok {| status := HTTP_200_OK; data := BReview (serialize_review st' r) |}, st') /\
    reviews st' = reviews st ++ [r] /\
    r_doi r = doi /\ r_site_url r = Some site_url /\ r_revision r = 1 /\
    r_accepted r = false /\
    exists nb, blocks st' = blocks st ++ nb /\ map b_name nb = kept_block_names ds /\
               Forall (fun br => b_review br = r_id r) nb.
Proof.
  exact (fetch_new_doi_ok cl rq st site_url doi ds Hsite Hdoi Hconnect Hnew Hload Hjoin).
Qed.

(** X3. Under the same conditions, fetching the DOI a second time gives
    the same answer as the first and changes nothing. *)
Theorem fetch_new_doi_twice (cl : client) (rq : request) (st : store)
  (site_url doi : string) (ds : dataset)
  (Hsite : q_site_url rq = Some site_url) (Hdoi : q_doi rq = Some doi)
  (Hconnect : dv_connect cl (Some site_url) (q_api_token rq) = true)
  (Hnew : review_exists st doi = false)
  (Hload : dv_load cl (Some site_url) (q_api_token rq) doi = Some ds)
  (Hjoin : dataset_joinable ds = true) :
  exists resp st',
    fetch_dataset cl rq st = (Ok resp, st') /\
    fetch_dataset cl rq st' = (Ok resp, st').
Proof.
  destruct (fetch_new_doi_ok cl rq st site_url doi ds Hsite Hdoi Hconnect Hnew Hload Hjoin)
    as (r & st' & E & R & Hrd & _).
  exists {| status := HTTP_200_OK; data := BReview (serialize_review st' r) |}, st'.
  split; [exact E|].
  apply (fetch_known_doi cl rq st' site_url doi r Hsite Hdoi Hconnect).
  rewrite R, filter_app, review_exists_false_filter by exact Hnew.
  simpl. rewrite Hrd, String.eqb_refl. reflexivity.
Qed.

(** X4. After such a fetch, the by-DOI listing of [review_by_doi] holds
    exactly one Review: the representation the fetch answered with. *)
Theorem review_by_doi_after_fetch (cl : client) (rq : request) (st : store)
  (site_url doi : string) (ds : dataset)
  (Hsite : q_site_url rq = Some site_url) (Hdoi : q_doi rq = Some doi)
  (Hconnect : dv_connect cl (Some site_url) (q_api_token rq) = true)
  (Hnew : review_exists st doi = false)
  (Hload : dv_load cl (Some site_url) (q_api_token rq) doi = Some ds)
  (Hjoin : dataset_joinable ds = true) :
  exists rep st',
    fetch_dataset cl rq st =
      (Ok {| status := HTTP_200_OK; data := BReview rep |}, st') /\
    review_by_doi st' doi = [rep].
Proof.
  destruct (fetch_new_doi_ok cl rq st site_url doi ds Hsite Hdoi Hconnect Hnew Hload Hjoin)
    as (r & st' & E & R & Hrd & _).
  exists (serialize_review st' r), st'. split; [exact E|].
  unfold review_by_doi. rewrite R, filter_app, review_exists_false_filter by exact Hnew.
  simpl. rewrite Hrd, String.eqb_refl. reflexivity.
Qed.

(** X5. Once a fetch of a new DOI has loaded the dataset, the DOI is taken,
    even if flattening a block then raised (there is no transaction): the
    Review row stays, and a second fetch answers 200 with that Review as
    stored, without loading the dataset again, and changes nothing. *)
Theorem fetch_failure_keeps_review (cl : client) (rq : request) (st : store)
  (site_url doi : string) (ds : dataset)
  (Hsite : q_site_url rq = Some site_url) (Hdoi : q_doi rq = Some doi)
  (Hconnect : dv_connect cl (Some site_url) (q_api_token rq) = true)
  (Hnew : review_exists st doi = false)
  (Hload : dv_load cl (Some site_url) (q_api_token rq) doi = Some ds) :
  let st1 := snd (fetch_dataset cl rq st) in
  exists r,
    reviews st1 = reviews st ++ [r] /\ r_doi r = doi /\
    fetch_dataset cl rq st1 =
      (Ok {| status := HTTP_200_OK; data := BReview (serialize_review st1 r) |}, st1).
Proof.
  intro st1. subst st1.
  rewrite (fetch_new_doi_unfold cl rq st site_url doi ds Hsite Hdoi Hconnect Hnew Hload).
  cbv zeta.
  set (r := {| r_id := uuid_of (next_id st); r_doi := doi;
               r_site_url := Some site_url; r_revision := 1; r_accepted := false |}).
  set (s1 := {| reviews := reviews st ++ [r]; blocks := blocks st;
                compounds := compounds st; fields := fields st;
                next_id := S (next_id st) |}).
  pose proof (dataset_loop_reviews r ds s1) as R.
  destruct (for_each (process_dataset_block r) ds s1) as [res s2]. simpl in R |- *.
  assert (R2 : reviews (snd (match res with
                             | Ok _ => (Ok {| status := HTTP_200_OK;
                                              data := BReview (serialize_review s2 r) |}, s2)
                             | Err e => (Err e, s2) end)) = reviews st ++ [r])
    by (destruct res; exact R).
  assert (S2 : snd (match res with
                    | Ok _ => (Ok {| status := HTTP_200_OK;
                                     data := BReview (serialize_review s2 r) |}, s2)
                    | Err e => (Err e, s2) end) = s2) by (destruct res; reflexivity).
  rewrite S2 in R2 |- *.
  exists r. split; [exact R2|]. split; [reflexivity|].
  apply (fetch_known_doi cl rq s2 site_url doi r Hsite Hdoi Hconnect).
  rewrite R2, filter_app, review_exists_false_filter by exact Hnew.
  simpl. rewrite String.eqb_refl. reflexivity.
Qed.

(** X6. A dataset that cannot be loaded raises before anything is saved:
    the store is left as it was. *)
Theorem fetch_load_failure_no_rows (cl : client) (rq : request) (st : store)
  (site_url doi : string)
  (Hsite : q_site_url rq = Some site_url) (Hdoi : q_doi rq = Some doi)
  (Hnew : review_exists st doi = false)
  (Hload : dv_load cl (Some site_url) (q_api_token rq) doi = None) :
  fetch_dataset cl rq st = (Err ClientError, st).
Proof.
  unfold fetch_dataset. rewrite Hsite, Hdoi.
  destruct (dv_connect cl (Some site_url) (q_api_token rq)); [|reflexivity].
  simpl. rewrite bind_get_store, Hnew, Hload. reflexivity.
Qed.

Lemma fetch_dataset_keeps_integrity_witness :
  integrity empty_store = true /\
  integrity (snd (fetch_dataset sample_client dup_request empty_store)) = true.
Proof.
  assert (H : integrity empty_store = true) by reflexivity.
  split; [exact H|].
  exact (fetch_dataset_keeps_integrity sample_client dup_request empty_store H).
Defined.

Lemma fetch_new_doi_creates_review_witness :
  dataset_joinable sample_dataset = true /\
  exists r st',
    fetch_dataset sample_client dup_request empty_store =
      (Ok {| status := HTTP_200_OK; data := BReview (serialize_review st' r) |}, st') /\
    reviews st' = reviews empty_store ++ [r] /\
    r_doi r = "doi:10.18419/darus-1" /\ r_site_url r = Some "https://darus.example" /\
    r_revision r = 1 /\ r_accepted r = false /\
    exists nb, blocks st' = blocks empty_store ++ nb /\
               map b_name nb = kept_block_names sample_dataset /\
               Forall (fun br => b_review br = r_id r) nb.
Proof.
  assert (Hj : dataset_joinable sample_dataset = true) by (vm_compute; reflexivity).
  split; [exact Hj|].
  apply (fetch_new_doi_creates_review sample_client dup_request empty_store
           "https://darus.example" "doi:10.18419/darus-1" sample_dataset);
    [reflexivity|reflexivity|reflexivity|reflexivity|reflexivity|exact Hj].
Defined.

Lemma fetch_new_doi_twice_witness :
  dataset_joinable sample_dataset = true /\
  exists resp st',
    fetch_dataset sample_client dup_request empty_store = (Ok resp, st') /\
    fetch_dataset sample_client dup_request st' = (Ok resp, st').
Proof.
  assert (Hj : dataset_joinable sample_dataset = true) by (vm_compute; reflexivity).
  split; [exact Hj|].
  apply (fetch_new_doi_twice sample_client dup_request empty_store
           "https://darus.example" "doi:10.18419/darus-1" sample_dataset);
    [reflexivity|reflexivity|reflexivity|reflexivity|reflexivity|exact Hj].
Defined.

Lemma review_by_doi_after_fetch_witness :
  dataset_joinable sample_dataset = true /\
  exists rep st',
    fetch_dataset sample_client dup_request empty_store =
      (Ok {| status := HTTP_200_OK; data := BReview rep |}, st') /\
    review_by_doi st' "doi:10.18419/darus-1" = [rep].
Proof.
  assert (Hj : dataset_joinable sample_dataset = true) by (vm_compute; reflexivity).
  split; [exact Hj|].
  apply (review_by_doi_after_fetch sample_client dup_request empty_store
           "https://darus.example" "doi:10.18419/darus-1" sample_dataset);
    [reflexivity|reflexivity|reflexivity|reflexivity|reflexivity|exact Hj].
Defined.

(** X5, at a dataset whose flattening raises: the first fetch fails. *)
Lemma fetch_failure_keeps_review_witness :
  fst (fetch_dataset broken_client dup_request empty_store) = Err TypeError /\
  let st1 := snd (fetch_dataset broken_client dup_request empty_store) in
  exists r,
    reviews st1 = reviews empty_store ++ [r] /\ r_doi r = "doi:10.18419/darus-1" /\
    fetch_dataset broken_client dup_request st1 =
      (Ok {| status := HTTP_200_OK; data := BReview (serialize_review st1 r) |}, st1).
Proof.
  split; [vm_compute; reflexivity|].
  apply (fetch_failure_keeps_review broken_client dup_request empty_store
           "https://darus.example" "doi:10.18419/darus-1" [("citation", null_element_block)]);
    reflexivity.
Defined.

Lemma fetch_load_failure_no_rows_witness :
  fetch_dataset no_dataset_client dup_request empty_store = (Err ClientError, empty_store).
Proof.
  apply (fetch_load_failure_no_rows no_dataset_client dup_request empty_store
           "https://darus.example" "doi:10.18419/darus-1"); reflexivity.
Defined.

(** ** Field counts *)

















(** X7. For an identifier no Review has, the field count is -1 and the
    accepted count 0 (both [values_list] queries are empty). *)
Theorem field_count_unknown_review (st : store) (pk : string)
  (Hmissing : forall r, In r (reviews st) -> r_id r <> pk) :
  data (get_field_count st pk) = BFieldCount (-1) 0.
Proof.
  unfold get_field_count, primitive_fields, compound_fields.
  rewrite (reviews_with_pk_nil st pk Hmissing). reflexivity.
Qed.



Lemma field_count_unknown_review_witness :
  (forall r, In r (reviews count_store) -> r_id r <> "unknown") /\
  data (get_field_count count_store "unknown") = BFieldCount (-1) 0.
Proof.
  assert (H : forall r, In r (reviews count_store) -> r_id r <> "unknown").
  { intros r [<-|[]]. simpl. discriminate. }
  split; [exact H|]. exact (field_count_unknown_review count_store "unknown" H).
Defined.



(** ** Open fields: requests and answers *)

Lemma fetch_blocks_ok get site_url bs (schema : block_row -> schema_fields) :
  (forall b, In b bs ->
     get (site_url ++ "/api/metadatablocks/" ++ b_name b)%string = Some (schema b)) ->
  fetch_blocks get site_url bs =
    (Ok (map (fun b => open_fields_of (b_name b) (schema b)) bs),
     map (fun b => (site_url ++ "/api/metadatablocks/" ++ b_name b)%string) bs).
Proof.
  induction bs as [|b bs IH]; intro H; cbn [fetch_blocks map]; [reflexivity|].
  unfold _fetch_open_metadatablock_fields. rewrite (H b (or_introl eq_refl)).
  rewrite IH by (intros b' Hb'; apply H; now right). reflexivity.
Qed.

Lemma fetch_blocks_fail get site_url pre b post (schema : block_row -> schema_fields) :
  (forall b', In b' pre ->
     get (site_url ++ "/api/metadatablocks/" ++ b_name b')%string = Some (schema b')) ->
  get (site_url ++ "/api/metadatablocks/" ++ b_name b)%string = None ->
  fetch_blocks get site_url (pre ++ b :: post) =
    (Err HTTPError,
     map (fun b => (site_url ++ "/api/metadatablocks/" ++ b_name b)%string) (pre ++ [b])).
Proof.
  induction pre as [|b' pre IH]; intros Hpre Hb; cbn [fetch_blocks map app].
  - unfold _fetch_open_metadatablock_fields. rewrite Hb. reflexivity.
  - unfold _fetch_open_metadatablock_fields at 1. rewrite (Hpre b' (or_introl eq_refl)).
    rewrite IH by (try (intros b'' Hb''; apply Hpre; now right); exact Hb).
    reflexivity.
Qed.

(** X10. For a stored review with a site_url, the open-fields handler asks
    [{site_url}/api/metadatablocks/{name}] once per Metadatablock row of the
    review, in order, with one trailing slash of the site_url removed; when
    every request succeeds it answers 200 with one reconciled entry per
    block, in the same order. *)
Theorem open_fields_all_blocks (get : http_get) (st : store) (pk : string)
  (review : review_row) (rs : list review_row) (site_url : string)
  (schema : block_row -> schema_fields)
  (Hpk : reviews_with_pk st pk = review :: rs)
  (Hsite : r_site_url review = Some site_url)
  (Hget : forall b, In b (blocks_of st (r_id review)) ->
     get (strip_slash site_url ++ "/api/metadatablocks/" ++ b_name b)%string = Some (schema b)) :
  fetch_open_metadatablock_fields_for_review get st pk =
    (Ok {| status := HTTP_200_OK;
           data := BOpenFields (map (fun b => open_fields_of (b_name b) (schema b))
                                    (blocks_of st (r_id review))) |},
     map (fun b => (strip_slash site_url ++ "/api/metadatablocks/" ++ b_name b)%string)
         (blocks_of st (r_id review))).
Proof.
  unfold fetch_open_metadatablock_fields_for_review. rewrite Hpk, Hsite.
  rewrite (fetch_blocks_ok get (strip_slash site_url) _ schema Hget). reflexivity.
Qed.

(** X11. When the request for one block fails, the handler raises: the
    blocks before it have been requested, the ones after it are not. *)
Theorem open_fields_stop_at_failure (get : http_get) (st : store) (pk : string)
  (review : review_row) (rs : list review_row) (site_url : string)
  (schema : block_row -> schema_fields) (pre : list block_row) (b : block_row)
  (post : list block_row)
  (Hpk : reviews_with_pk st pk = review :: rs)
  (Hsite : r_site_url review = Some site_url)
  (Hblocks : blocks_of st (r_id review) = pre ++ b :: post)
  (Hpre : forall b', In b' pre ->
     get (strip_slash site_url ++ "/api/metadatablocks/" ++ b_name b')%string = Some (schema b'))
  (Hfail : get (strip_slash site_url ++ "/api/metadatablocks/" ++ b_name b)%string = None) :
  fetch_open_metadatablock_fields_for_review get st pk =
    (Err HTTPError,
     map (fun b => (strip_slash site_url ++ "/api/metadatablocks/" ++ b_name b)%string)
         (pre ++ [b])).
Proof.
  unfold fetch_open_metadatablock_fields_for_review. rewrite Hpk, Hsite, Hblocks.
  rewrite (fetch_blocks_fail get (strip_slash site_url) pre b post schema Hpre Hfail).
  reflexivity.
Qed.

Lemma string_length_app u t :
  String.length (u ++ t) = String.length u + String.length t.
Proof. induction u as [|c u IH]; simpl; [reflexivity|]. now rewrite IH. Qed.

Lemma substring_prefix u t : String.substring 0 (String.length u) (u ++ t) = u.
Proof. induction u as [|c u IH]; simpl; [now destruct t|]. now rewrite IH. Qed.

Lemma substring_after u t n :
  String.substring (String.length u) n (u ++ t) = String.substring 0 n t.
Proof. induction u as [|c u IH]; simpl; [reflexivity|]. exact IH. Qed.

(** X12. The handler drops exactly one trailing slash of the stored
    site_url: [u ++ "/"] becomes [u] (so ["https://x/"] and ["https://x"]
    give the same request URLs, while ["https://x//"] keeps one slash), and
    a site_url not ending in a slash is used as it is. *)
Theorem strip_slash_one (u : string) :
  strip_slash (u ++ "/") = u /\
  (ends_with_slash u = false -> strip_slash u = u).
Proof.
  split.
  - unfold strip_slash, ends_with_slash. rewrite string_length_app. simpl.
    rewrite Nat.add_1_r.
    replace (String.substring (String.length u) 1 (u ++ "/"))
      with (String.substring 0 1 "/") by (symmetry; apply substring_after).
    simpl. rewrite Nat.sub_0_r. apply substring_prefix.
  - unfold strip_slash. intro H. now rewrite H.
Qed.

Lemma open_fields_all_blocks_witness :
  let st := open_store [("b1", "citation"); ("b2", "geospatial")] in
  reviews_with_pk st "r" = [open_review] /\
  fetch_open_metadatablock_fields_for_review darus_get st "r" =
    (Ok {| status := HTTP_200_OK;
           data := BOpenFields [open_fields_of "citation" example_schema;
                                open_fields_of "geospatial" display_clash_schema] |},
     ["https://darus.example/api/metadatablocks/citation";
      "https://darus.example/api/metadatablocks/geospatial"]).
Proof.
  intro st. split; [reflexivity|].
  apply (open_fields_all_blocks darus_get st "r" open_review [] "https://darus.example/"
           darus_schema); [reflexivity|reflexivity|].
  intros b Hb. destruct Hb as [<-|[<-|[]]]; reflexivity.
Defined.

Lemma open_fields_stop_at_failure_witness :
  let st := open_store [("b1", "citation"); ("b2", "journal"); ("b3", "geospatial")] in
  reviews_with_pk st "r" = [open_review] /\
  fetch_open_metadatablock_fields_for_review darus_get st "r" =
    (Err HTTPError,
     ["https://darus.example/api/metadatablocks/citation";
      "https://darus.example/api/metadatablocks/journal"]).
Proof.
  intro st. split; [reflexivity|].
  apply (open_fields_stop_at_failure darus_get st "r" open_review [] "https://darus.example/"
           darus_schema [review_block "b1" "citation"] (review_block "b2" "journal")
           [review_block "b3" "geospatial"]); [reflexivity|reflexivity|reflexivity| |reflexivity].
  intros b Hb. destruct Hb as [<-|[]]; reflexivity.
Defined.

Lemma strip_slash_one_witness :
  ends_with_slash "https://darus.example" = false /\
  strip_slash ("https://darus.example" ++ "/") = "https://darus.example" /\
  strip_slash "https://darus.example" = "https://darus.example".
Proof.
  assert (H : ends_with_slash "https://darus.example" = false) by reflexivity.
  split; [exact H|].
  destruct (strip_slash_one "https://darus.example") as [H1 H2].
  split; [exact H1|exact (H2 H)].
Defined.


(** ** Deleting a review *)



Lemma dead_block_in st rid b :
  In b (blocks st) -> b_review b = rid -> str_in (b_id b) (dead_blocks st rid) = true.
Proof.
  intros Hb E. apply str_in_In, in_map_iff. exists b. split; [reflexivity|].
  apply filter_In. split; [exact Hb|]. now apply String.eqb_eq.
Qed.

Lemma dead_compound_in st rid c :
  In c (compounds st) -> str_in (c_block c) (dead_blocks st rid) = true ->
  str_in (c_id c) (dead_compounds st rid) = true.
Proof.
  intros Hc E. apply str_in_In, in_map_iff. exists c. split; [reflexivity|].
  now apply filter_In.
Qed.

Lemma delete_keeps_block st rid b :
  In b (blocks st) -> str_in (b_id b) (dead_blocks st rid) = false ->
  In b (blocks (delete_review st rid)).
Proof.
  intros Hb Hd. simpl. apply filter_In. split; [exact Hb|].
  destruct (String.eqb_spec (b_review b) rid) as [E|E]; [|reflexivity].
  rewrite (dead_block_in st rid b Hb E) in Hd. discriminate.
Qed.

Lemma delete_keeps_compound st rid c :
  In c (compounds st) -> str_in (c_id c) (dead_compounds st rid) = false ->
  In c (compounds (delete_review st rid)).
Proof.
  intros Hc Hd. simpl. apply filter_In. split; [exact Hc|].
  destruct (str_in (c_block c) (dead_blocks st rid)) eqn:E; [|reflexivity].
  rewrite (dead_compound_in st rid c Hc E) in Hd. discriminate.
Qed.

Lemma delete_block_alive st rid id :
  str_in id (map b_id (blocks st)) = true -> str_in id (dead_blocks st rid) = false ->
  str_in id (map b_id (blocks (delete_review st rid))) = true.
Proof.
  intros Hin Hd. apply str_in_In, in_map_iff in Hin as (b & <- & Hb).
  apply str_in_In, in_map_iff. exists b. split; [reflexivity|].
  now apply delete_keeps_block.
Qed.

Lemma delete_review_integrity st rid :
  integrity st = true -> integrity (delete_review st rid) = true.
Proof.
  unfold integrity. rewrite !andb_true_iff, !forallb_forall.
  intros [[Hb Hc] Hf]. split; [split|].
  - intros b Hin. simpl in Hin. apply filter_In in Hin as [Hin Hn].
    pose proof (Hb b Hin) as Hr. apply str_in_In, in_map_iff in Hr as (r & Er & Hr).
    apply str_in_In, in_map_iff. exists r. split; [exact Er|].
    simpl. apply filter_In. split; [exact Hr|]. now rewrite Er.
  - intros c Hin. simpl in Hin. apply filter_In in Hin as [Hin Hn].
    apply negb_true_iff in Hn. exact (delete_block_alive st rid _ (Hc c Hin) Hn).
  - intros f Hin. simpl in Hin. apply filter_In in Hin as [Hin Hn].
    apply negb_true_iff in Hn. pose proof (Hf f Hin) as Ho.
    unfold field_dead in Hn. unfold owner_exists in *.
    destruct (f_owner f) as [id|id].
    + exact (delete_block_alive st rid id Ho Hn).
    + apply str_in_In, in_map_iff in Ho as (c & <- & Hc').
      apply str_in_In, in_map_iff. exists c. split; [reflexivity|].
      now apply delete_keeps_compound.
Qed.

Lemma review_with_pk_id st pk r rs :
  reviews_with_pk st pk = r :: rs -> r_id r = pk.
Proof.
  intro H. assert (Hin : In r (reviews_with_pk st pk)) by (rewrite H; now left).
  apply filter_In in Hin as [_ E]. now apply String.eqb_eq.
Qed.

Lemma delete_review_gone st rid :
  reviews_with_pk (delete_review st rid) rid = [] /\ blocks_of (delete_review st rid) rid = [].
Proof.
  split.
  - apply reviews_with_pk_nil. intros r Hr. simpl in Hr. apply filter_In in Hr as [_ Hn].
    apply negb_true_iff, String.eqb_neq in Hn. exact Hn.
  - unfold blocks_of. simpl. induction (blocks st) as [|b bs IH]; simpl; [reflexivity|].
    destruct (String.eqb_spec (b_review b) rid) as [E|E]; simpl; [exact IH|].
    apply String.eqb_neq in E. rewrite E. exact IH.
Qed.



(** X14. Deleting a review through [ReviewDetails] keeps every foreign key
    of the remaining rows pointing to an existing row: the cascades leave
    no Metadatablock, Compound or Field row orphaned. *)
Theorem review_destroy_keeps_integrity (st : store) (pk : string)
  (H : integrity st = true) :
  integrity (snd (review_destroy st pk)) = true.
Proof.
  unfold review_destroy. destruct (reviews_with_pk st pk) as [|r rs]; simpl.
  - exact H.
  - now apply delete_review_integrity.
Qed.

(** X15. Deleting an existing review answers 204; afterwards no Review or
    Metadatablock row has its key, a second DELETE answers 404, the field
    count answers [-1] and [0], and the open-fields handler answers 404. *)
Theorem review_destroy_removes (st : store) (pk : string) (get : http_get)
  (Hfound : reviews_with_pk st pk <> []) :
  let st' := snd (review_destroy st pk) in
  fst (review_destroy st pk) = HTTP_204_NO_CONTENT /\
  reviews_with_pk st' pk = [] /\ blocks_of st' pk = [] /\
  review_destroy st' pk = (HTTP_404_NOT_FOUND, st') /\
  data (get_field_count st' pk) = BFieldCount (-1) 0 /\
  fetch_open_metadatablock_fields_for_review get st' pk =
    (Ok {| status := HTTP_404_NOT_FOUND; data := BMessage (not_found_message pk) |}, []).
Proof.
  unfold review_destroy at 1 2. destruct (reviews_with_pk st pk) as [|r rs] eqn:E;
    [contradiction|]. simpl.
  rewrite (review_with_pk_id st pk r rs E).
  destruct (delete_review_gone st pk) as [Hr Hb].
  split; [reflexivity|]. split; [exact Hr|]. split; [exact Hb|].
  split; [unfold review_destroy; now rewrite Hr|].
  split.
  - unfold get_field_count, primitive_fields, compound_fields. now rewrite Hr.
  - unfold fetch_open_metadatablock_fields_for_review. now rewrite Hr.
Qed.


Lemma review_destroy_keeps_integrity_witness :
  integrity two_review_store = true /\
  integrity (snd (review_destroy two_review_store "r")) = true.
Proof.
  assert (H : integrity two_review_store = true) by reflexivity.
  split; [exact H|]. exact (review_destroy_keeps_integrity two_review_store "r" H).
Defined.

Lemma review_destroy_removes_witness :
  reviews_with_pk two_review_store "r" <> [] /\
  (let st' := snd (review_destroy two_review_store "r") in
   fst (review_destroy two_review_store "r") = HTTP_204_NO_CONTENT /\
   reviews_with_pk st' "r" = [] /\ blocks_of st' "r" = [] /\
   review_destroy st' "r" = (HTTP_404_NOT_FOUND, st') /\
   data (get_field_count st' "r") = BFieldCount (-1) 0 /\
   fetch_open_metadatablock_fields_for_review darus_get st' "r" =
     (Ok {| status := HTTP_404_NOT_FOUND; data := BMessage (not_found_message "r") |}, [])).
Proof.
  assert (H : reviews_with_pk two_review_store "r" <> []) by discriminate.
  split; [exact H|]. exact (review_destroy_removes two_review_store "r" darus_get H).
Defined.


(** ** [clean_name] and [camel_to_snake] *)

Lemma string_len_ind (P : string -> Prop) :
  (forall s, (forall t, String.length t < String.length s -> P t) -> P s) ->
  forall s, P s.
Proof.
  intros H s. assert (Hn : forall n t, String.length t <= n -> P t).
  { induction n as [|n IH]; intros t Ht; apply H; intros t' Ht'; [lia|].
    apply IH. lia. }
  exact (Hn _ s (le_n _)).
Qed.

Lemma sub1_cons b c rest :
  sub1 b (String c rest) =
  if b && is_lower c then String c (sub1 true rest)
  else
    match rest with
    | String u ((String l _) as rest') =>
        if negb (Ascii.eqb c "010"%char) && is_upper u && is_lower l
        then String c (String "_"%char (String u (sub1 true rest')))
        else String c (sub1 false rest)
    | _ => String c (sub1 false rest)
    end.
Proof. reflexivity. Qed.

Lemma sub2_cons c u rest :
  sub2 (String c (String u rest)) =
  if (is_lower c || is_digit c) && is_upper u
  then String c (String "_"%char (String u (sub2 rest)))
  else String c (sub2 (String u rest)).
Proof. reflexivity. Qed.

Lemma last_char_some d s : exists x, last_char (String d s) = Some x.
Proof.
  revert d. induction s as [|e s IH]; intro d; [now exists d|].
  destruct (IH e) as [x Hx]. exists x. exact Hx.
Qed.

Lemma last_char_String c s :
  last_char (String c s) = match last_char s with None => Some c | Some x => Some x end.
Proof.
  destruct s as [|d s]; [reflexivity|].
  destruct (last_char_some d s) as [x Hx]. rewrite Hx. exact Hx.
Qed.

Ltac close_last :=
  repeat rewrite last_char_String;
  repeat match goal with |- context [last_char ?x] => destruct (last_char x) end;
  reflexivity.

Lemma last_char_sub1 s : forall b, last_char (sub1 b s) = last_char s.
Proof.
  induction s as [s IH] using string_len_ind. intro b.
  destruct s as [|c rest]; [reflexivity|]. rewrite sub1_cons.
  destruct (b && is_lower c).
  - rewrite !(last_char_String c), IH by (simpl; lia). reflexivity.
  - destruct rest as [|u [|l r]].
    + reflexivity.
    + rewrite !(last_char_String c), IH by (simpl; lia). reflexivity.
    + destruct (_ && _ && _).
      * rewrite !last_char_String, (IH (String l r)) by (simpl; lia). close_last.
      * rewrite !(last_char_String c), IH by (simpl; lia). reflexivity.
Qed.

Lemma first_char_sub1 b s : first_char (sub1 b s) = first_char s.
Proof.
  destruct s as [|c rest]; [reflexivity|]. rewrite sub1_cons.
  destruct (b && is_lower c); [reflexivity|].
  destruct rest as [|u [|l r]]; try reflexivity. destruct (_ && _ && _); reflexivity.
Qed.

Lemma last_char_sub2 s : last_char (sub2 s) = last_char s.
Proof.
  induction s as [s IH] using string_len_ind.
  destruct s as [|c [|u rest]]; try reflexivity. rewrite sub2_cons.
  destruct (_ && _).
  - rewrite !last_char_String, (IH rest) by (simpl; lia). close_last.
  - rewrite !(last_char_String c), IH by (simpl; lia). reflexivity.
Qed.

Lemma first_char_sub2 s : first_char (sub2 s) = first_char s.
Proof.
  destruct s as [|c [|u rest]]; try reflexivity. rewrite sub2_cons.
  destruct (_ && _); reflexivity.
Qed.

Lemma all_chars_sub1 (p : ascii -> bool) s :
  p "_"%char = true -> forall b, all_chars p s = true -> all_chars p (sub1 b s) = true.
Proof.
  intro Hu. induction s as [s IH] using string_len_ind. intros b Hs.
  destruct s as [|c rest]; [reflexivity|]. rewrite sub1_cons.
  simpl in Hs. apply andb_prop in Hs as [Hc Hr].
  destruct (b && is_lower c).
  - cbn [all_chars]. rewrite Hc. apply IH; [simpl; lia|exact Hr].
  - destruct rest as [|u [|l r]].
    + cbn [all_chars]. now rewrite Hc.
    + cbn [all_chars]. rewrite Hc. apply IH; [simpl; lia|exact Hr].
    + destruct (_ && _ && _).
      * cbn [all_chars] in Hr |- *. apply andb_prop in Hr as [Hu' Hr].
        rewrite Hc, Hu, Hu'. apply IH; [simpl; lia|exact Hr].
      * cbn [all_chars]. rewrite Hc. apply IH; [simpl; lia|exact Hr].
Qed.

Lemma all_chars_sub2 (p : ascii -> bool) s :
  p "_"%char = true -> all_chars p s = true -> all_chars p (sub2 s) = true.
Proof.
  intro Hu. induction s as [s IH] using string_len_ind. intro Hs.
  destruct s as [|c [|u rest]]; try exact Hs. rewrite sub2_cons.
  simpl in Hs. apply andb_prop in Hs as [Hc Hs]. apply andb_prop in Hs as [Hu' Hr].
  destruct (_ && _); cbn [all_chars]; rewrite Hc.
  - rewrite Hu, Hu'. apply IH; [simpl; lia|exact Hr].
  - apply IH; [simpl; lia|]. simpl. now rewrite Hu'.
Qed.

Lemma all_chars_lower (p q : ascii -> bool) s :
  (forall c, p c = true -> q (lower_char c) = true) ->
  all_chars p s = true -> all_chars q (lower s) = true.
Proof.
  intro H. induction s as [|c s IH]; simpl; [reflexivity|].
  intro Hs. apply andb_prop in Hs as [Hc Hs]. now rewrite (H c Hc), (IH Hs).
Qed.

Lemma first_char_lower s : first_char (lower s) = option_map lower_char (first_char s).
Proof. destruct s; reflexivity. Qed.

Lemma last_char_lower s : last_char (lower s) = option_map lower_char (last_char s).
Proof.
  induction s as [|c s IH]; [reflexivity|]. simpl lower.
  rewrite !last_char_String, IH. destruct (last_char s); reflexivity.
Qed.

(** The character classes of [lower_char] on the 256 byte values. *)
Lemma lower_char_classes c :
  implb (is_ascii_char c && (is_word c || is_space c)) (snake_char (lower_char c)) &&
  Bool.eqb (is_space (lower_char c)) (is_space c) = true.
Proof. destruct c as [[] [] [] [] [] [] [] []]; reflexivity. Qed.

Lemma edge_ok_lower o : edge_ok (option_map lower_char o) = edge_ok o.
Proof.
  destruct o as [c|]; [|reflexivity]. simpl.
  pose proof (lower_char_classes c) as H. apply andb_prop in H as [_ H].
  apply Bool.eqb_prop in H. now rewrite H.
Qed.

Lemma lower_char_id c : is_upper c = false -> lower_char c = c.
Proof. intro H. unfold lower_char. cbv zeta. unfold is_upper in H. now rewrite H. Qed.

Lemma all_chars_lstrip p s : all_chars p s = true -> all_chars p (lstrip s) = true.
Proof.
  induction s as [|c s IH]; simpl; [reflexivity|]. intro H.
  destruct (is_space c); [|exact H]. apply IH. now apply andb_prop in H as [_ H].
Qed.

Lemma all_chars_rstrip p s : all_chars p s = true -> all_chars p (rstrip s) = true.
Proof.
  induction s as [|c s IH]; simpl; [reflexivity|]. intro H.
  apply andb_prop in H as [Hc H]. specialize (IH H).
  destruct (rstrip s) as [|d r]; simpl.
  - destruct (is_space c); simpl; [reflexivity|now rewrite Hc].
  - rewrite Hc. exact IH.
Qed.

Lemma edge_first_lstrip s : edge_ok (first_char (lstrip s)) = true.
Proof.
  induction s as [|c s IH]; simpl; [reflexivity|].
  destruct (is_space c) eqn:E; [exact IH|]. simpl. now rewrite E.
Qed.

Lemma edge_first_rstrip s :
  edge_ok (first_char s) = true -> edge_ok (first_char (rstrip s)) = true.
Proof.
  destruct s as [|c s]; simpl; [reflexivity|]. intro H.
  destruct (rstrip s) as [|d r]; [destruct (is_space c) eqn:E|]; simpl;
    try reflexivity; try exact H. now rewrite E.
Qed.

Lemma edge_last_rstrip s : edge_ok (last_char (rstrip s)) = true.
Proof.
  induction s as [|c s IH]; simpl; [reflexivity|].
  destruct (rstrip s) as [|d r] eqn:E.
  - destruct (is_space c) eqn:Es; simpl; [reflexivity|]. now rewrite Es.
  - exact IH.
Qed.

Lemma blank_invalid_chars s :
  all_chars is_ascii_char s = true ->
  all_chars (fun c => is_ascii_char c && (is_word c || is_space c)) (blank_invalid s) = true.
Proof.
  induction s as [|c s IH]; simpl; [reflexivity|]. intro H.
  apply andb_prop in H as [Hc H]. rewrite (IH H), andb_true_r.
  destruct (is_word c || is_space c) eqn:E; [now rewrite Hc, E|reflexivity].
Qed.

Lemma camel_to_snake_shape_gen s :
  all_chars is_ascii_char s = true -> snake_shape (camel_to_snake s) = true.
Proof.
  intro H. unfold camel_to_snake, clean_name, strip.
  set (p := fun c => is_ascii_char c && (is_word c || is_space c)).
  set (t := rstrip (lstrip (blank_invalid s))).
  assert (Ht : all_chars p t = true)
    by (apply all_chars_rstrip, all_chars_lstrip, blank_invalid_chars, H).
  assert (Hf : edge_ok (first_char t) = true)
    by (apply edge_first_rstrip, edge_first_lstrip).
  assert (Hl : edge_ok (last_char t) = true) by apply edge_last_rstrip.
  unfold snake_shape. rewrite first_char_lower, last_char_lower, !edge_ok_lower,
    first_char_sub2, first_char_sub1, last_char_sub2, last_char_sub1, Hf, Hl.
  rewrite (all_chars_lower p snake_char).
  - reflexivity.
  - intros c Hc. pose proof (lower_char_classes c) as Hcl.
    apply andb_prop in Hcl as [Hcl _]. unfold p in Hc. rewrite Hc in Hcl. exact Hcl.
  - apply all_chars_sub2; [reflexivity|]. apply all_chars_sub1; [reflexivity|exact Ht].
Qed.

Lemma sub1_no_upper s :
  forall b, all_chars (fun c => negb (is_upper c)) s = true -> sub1 b s = s.
Proof.
  induction s as [|c rest IH]; intros b H; [reflexivity|]. rewrite sub1_cons.
  simpl in H. apply andb_prop in H as [_ H].
  destruct (b && is_lower c); [now rewrite IH|].
  destruct rest as [|u [|l r]]; try (now rewrite IH).
  destruct (_ && is_upper u && _) eqn:E; [|now rewrite IH].
  simpl in H. apply andb_prop in H as [Hu _]. apply negb_true_iff in Hu.
  rewrite Hu, andb_false_r in E. discriminate.
Qed.

Lemma sub2_no_upper s :
  all_chars (fun c => negb (is_upper c)) s = true -> sub2 s = s.
Proof.
  induction s as [|c rest IH]; intro H; [reflexivity|].
  destruct rest as [|u r]; [reflexivity|]. rewrite sub2_cons.
  simpl in H. apply andb_prop in H as [_ H].
  pose proof H as H'. simpl in H'. apply andb_prop in H' as [Hu _].
  apply negb_true_iff in Hu. rewrite Hu, andb_false_r. now rewrite IH.
Qed.

Lemma lower_no_upper s : all_chars (fun c => negb (is_upper c)) s = true -> lower s = s.
Proof.
  induction s as [|c s IH]; simpl; [reflexivity|]. intro H.
  apply andb_prop in H as [Hc H]. apply negb_true_iff in Hc.
  now rewrite lower_char_id, IH.
Qed.

Lemma blank_invalid_id s :
  all_chars (fun c => is_word c || is_space c) s = true -> blank_invalid s = s.
Proof.
  induction s as [|c s IH]; simpl; [reflexivity|]. intro H.
  apply andb_prop in H as [Hc H]. now rewrite Hc, IH.
Qed.

Lemma lstrip_id s : edge_ok (first_char s) = true -> lstrip s = s.
Proof.
  destruct s as [|c s]; simpl; [reflexivity|]. intro H.
  apply negb_true_iff in H. now rewrite H.
Qed.

Lemma rstrip_id s : edge_ok (last_char s) = true -> rstrip s = s.
Proof.
  induction s as [|c s IH]; [reflexivity|]. intro H. simpl.
  destruct s as [|d r].
  - simpl in H. apply negb_true_iff in H. simpl. now rewrite H.
  - rewrite IH by exact H. reflexivity.
Qed.

Lemma all_chars_impl (p q : ascii -> bool) s :
  (forall c, p c = true -> q c = true) -> all_chars p s = true -> all_chars q s = true.
Proof.
  intro H. induction s as [|c s IH]; simpl; [reflexivity|]. intro Hs.
  apply andb_prop in Hs as [Hc Hs]. now rewrite (H c Hc), (IH Hs).
Qed.

Lemma camel_to_snake_fixed_gen s : snake_shape s = true -> camel_to_snake s = s.
Proof.
  unfold snake_shape. intro H. apply andb_prop in H as [H Hl].
  apply andb_prop in H as [Hs Hf].
  assert (Hnu : all_chars (fun c => negb (is_upper c)) s = true).
  { apply (all_chars_impl snake_char); [|exact Hs].
    intros c Hc. unfold snake_char in Hc. now apply andb_prop in Hc as [_ Hc]. }
  assert (Hws : all_chars (fun c => is_word c || is_space c) s = true).
  { apply (all_chars_impl snake_char); [|exact Hs].
    intros c Hc. unfold snake_char in Hc.
    apply andb_prop in Hc as [Hc _]. now apply andb_prop in Hc as [_ Hc]. }
  unfold camel_to_snake, clean_name, strip.
  rewrite blank_invalid_id, lstrip_id, rstrip_id, sub1_no_upper, sub2_no_upper, lower_no_upper;
    auto.
Qed.

(** X17. On ASCII text, [camel_to_snake] returns ASCII word characters and
    whitespace only, with no upper-case letter and no whitespace at either
    end. *)
Theorem camel_to_snake_shape (name : string)
  (Hascii : all_chars is_ascii_char name = true) :
  snake_shape (camel_to_snake name) = true.
Proof. exact (camel_to_snake_shape_gen name Hascii). Qed.

(** X18. On ASCII text, [camel_to_snake] is idempotent, and it leaves a
    name unchanged exactly when the name already has the shape of its
    results (for instance a snake_case name of [a-z0-9_]). *)
Theorem camel_to_snake_idempotent (name : string)
  (Hascii : all_chars is_ascii_char name = true) :
  camel_to_snake (camel_to_snake name) = camel_to_snake name /\
  (camel_to_snake name = name <-> snake_shape name = true).
Proof.
  split.
  - apply camel_to_snake_fixed_gen, camel_to_snake_shape_gen, Hascii.
  - split.
    + intro E. rewrite <- E. apply camel_to_snake_shape_gen, Hascii.
    + apply camel_to_snake_fixed_gen.
Qed.

Lemma camel_to_snake_shape_witness :
  all_chars is_ascii_char " getHTTPResponse (v2.0)" = true /\
  snake_shape (camel_to_snake " getHTTPResponse (v2.0)") = true /\
  camel_to_snake " getHTTPResponse (v2.0)" = "get_http_response  v2 0".
Proof.
  assert (H : all_chars is_ascii_char " getHTTPResponse (v2.0)" = true) by reflexivity.
  split; [exact H|]. split; [exact (camel_to_snake_shape _ H)|reflexivity].
Defined.

Lemma camel_to_snake_idempotent_witness :
  all_chars is_ascii_char "DatasetContact_Name" = true /\
  (camel_to_snake (camel_to_snake "DatasetContact_Name") = camel_to_snake "DatasetContact_Name" /\
   (camel_to_snake "DatasetContact_Name" = "DatasetContact_Name" <->
    snake_shape "DatasetContact_Name" = true)).
Proof.
  assert (H : all_chars is_ascii_char "DatasetContact_Name" = true) by reflexivity.
  split; [exact H|]. exact (camel_to_snake_idempotent _ H).
Defined.
